(** * VNStock-Data: the rate-limit-aware download loop

    A shallow embedding of [download_vn_stocks.py] and [download_vn30.py]:
    the throttling classifier, [extract_wait_time], the bounded retry loop,
    the symbol source, the resume filter and the bookkeeping of the batch
    driver, the exit codes of [main], and the lock-protected rate gate.

    Python [str] values are sequences of Unicode code points, so a text is a
    [list N].  Python [int] is [Z]. *)

From Stdlib Require Import ZArith NArith List Bool Lia.
From Stdlib Require Import Strings.String Strings.Ascii Numbers.DecimalString.
From Stdlib Require Import Sorting.Sorted.
From stdpp Require Import base decidable list gmap.

Open Scope Z_scope.

(** ** Python text *)

Module Text.

Definition str := list N.

(** Decoding of the UTF-8 bytes of a source literal into code points, so
    that literals can be written the way the Python file has them. *)
Fixpoint utf8_decode (fuel : nat) (bs : list N) : str :=
  match fuel with
  | O => []
  | S fuel' =>
    match bs with
    | [] => []
    | b0 :: r0 =>
      if (b0 <? 128)%N then b0 :: utf8_decode fuel' r0
      else if (b0 <? 224)%N then
        match r0 with
        | b1 :: r1 =>
          ((b0 - 192) * 64 + (b1 - 128))%N :: utf8_decode fuel' r1
        | _ => []
        end
      else if (b0 <? 240)%N then
        match r0 with
        | b1 :: b2 :: r2 =>
          ((b0 - 224) * 4096 + (b1 - 128) * 64 + (b2 - 128))%N
            :: utf8_decode fuel' r2
        | _ => []
        end
      else
        match r0 with
        | b1 :: b2 :: b3 :: r3 =>
          ((b0 - 240) * 262144 + (b1 - 128) * 4096
           + (b2 - 128) * 64 + (b3 - 128))%N :: utf8_decode fuel' r3
        | _ => []
        end
    end
  end.

Definition bytes_of (s : string) : list N :=
  map N_of_ascii (list_ascii_of_string s).

(** [u "..."] is the Python string written between the quotes. *)
Definition u (s : string) : str :=
  utf8_decode (String.length s) (bytes_of s).

(** [needle in haystack] on [str]: a scan for the first position at which
    the needle is a prefix of what remains. *)
Fixpoint startswith (needle s : str) : bool :=
  match needle, s with
  | [], _ => true
  | _ :: _, [] => false
  | a :: needle', b :: s' => (a =? b)%N && startswith needle' s'
  end.

Fixpoint str_in (needle haystack : str) : bool :=
  startswith needle haystack
  || match haystack with
     | [] => false
     | _ :: rest => str_in needle rest
     end.

(** [len(s)] and the slice [s[:n]]. *)
Definition len (s : str) : Z := Z.of_nat (length s).
Definition slice_to (n : nat) (s : str) : str := firstn n s.

(** [str(n)] for an [int], as used by f-strings. *)
Definition str_of_int (n : Z) : str :=
  bytes_of (NilEmpty.string_of_int (Z.to_int n)).

End Text.
Import Text.

(** ** The Unicode tables consulted by [str.lower] and by [re]

    CPython's Unicode database is not part of the repository; the embedding
    takes it as a parameter.  The laws are the restrictions of the real
    tables to Basic Latin, that a digit has a value that is not negative,
    and reflexivity of case-insensitive matching. *)

Definition ascii_lower (c : N) : N :=
  if ((65 <=? c) && (c <=? 90))%N then (c + 32)%N else c.

Definition ascii_isspace (c : N) : bool :=
  (((9 <=? c) && (c <=? 13)) || ((28 <=? c) && (c <=? 32)))%N.

Definition ascii_isdigit (c : N) : bool :=
  ((48 <=? c) && (c <=? 57))%N.

Definition is_ascii (s : str) : bool := forallb (fun c => (c <? 128)%N) s.

Class PyUnicode := {
  (** [s.lower()] *)
  str_lower : str -> str;
  (** the class [\s] of a [str] pattern *)
  re_isspace : N -> bool;
  (** the class [\d] of a [str] pattern *)
  re_isdigit : N -> bool;
  (** the value [int] gives to a decimal digit *)
  digit_value : N -> Z;
  (** [re_ci_eq c x]: the pattern literal [c] matches the text character
      [x] under [re.IGNORECASE] *)
  re_ci_eq : N -> N -> bool;
  lower_ascii : forall s, is_ascii s = true -> str_lower s = map ascii_lower s;
  isspace_ascii : forall c, (c < 128)%N -> re_isspace c = ascii_isspace c;
  isdigit_ascii : forall c, (c < 128)%N -> re_isdigit c = ascii_isdigit c;
  digit_value_ascii :
    forall c, ascii_isdigit c = true -> digit_value c = Z.of_N c - 48;
  digit_value_nonneg : forall c, re_isdigit c = true -> 0 <= digit_value c;
  re_ci_eq_refl : forall c, re_ci_eq c c = true
}.

(** ** The fragment of [re] used by [extract_wait_time] *)

Module Re.

Inductive re_class := ClsSpace | ClsDigit.

(** A pattern is a sequence of items: a literal character, or a class
    repeated one or more times (greedy), possibly as capturing group 1. *)
Inductive re_item :=
| Lit (c : N)
| Plus (cls : re_class) (group : bool).

Definition pattern := list re_item.

Definition lit (s : str) : pattern := map Lit s.

Section Engine.
Context `{U : PyUnicode}.

Definition cls_test (k : re_class) (c : N) : bool :=
  match k with
  | ClsSpace => re_isspace c
  | ClsDigit => re_isdigit c
  end.

(** Greedy repetition with backtracking: take as many characters of the
    class as there are, and give characters back one at a time while the
    rest of the pattern, [k], fails. *)
Fixpoint greedy (t : N -> bool) (k : str -> str -> option str)
         (taken s : str) : option str :=
  match s with
  | c :: s' =>
    if t c then
      match greedy t k (taken ++ [c]) s' with
      | Some r => Some r
      | None => k taken s
      end
    else k taken s
  | [] => k taken s
  end.

Definition plus (t : N -> bool) (k : str -> str -> option str)
           (s : str) : option str :=
  match s with
  | c :: s' => if t c then greedy t k [c] s' else None
  | [] => None
  end.

(** [match_here p g s]: match [p] at the start of [s]; the result is the
    text of group 1 ([g] while the group has not been passed). *)
Fixpoint match_here (p : pattern) (g : str) (s : str) : option str :=
  match p with
  | [] => Some g
  | Lit c :: p' =>
    match s with
    | x :: s' => if re_ci_eq c x then match_here p' g s' else None
    | [] => None
    end
  | Plus cl grp :: p' =>
    plus (cls_test cl)
         (fun taken rest => match_here p' (if grp then taken else g) rest)
         s
  end.

(** [re.search]: the leftmost start position at which the pattern
    matches; the result is [match.group(1)]. *)
Fixpoint search (p : pattern) (s : str) : option str :=
  match match_here p [] s with
  | Some g => Some g
  | None =>
    match s with
    | [] => None
    | _ :: s' => search p s'
    end
  end.

(** [int(digits)], for a text of decimal digits; the interpreter's cap on
    the length of such a text is not modelled. *)
Definition py_int (digits : str) : Z :=
  fold_left (fun acc c => acc * 10 + digit_value c) digits 0.

End Engine.

End Re.
Import Re.

(** ** What both scripts share: results, the provider, the event trace *)

(** [(symbol, success, message, row_count)] *)
Definition result : Type := str * bool * str * Z.

Definition res_symbol (r : result) : str := r.1.1.1.
Definition res_success (r : result) : bool := r.1.1.2.
Definition res_message (r : result) : str := r.1.2.
Definition res_row_count (r : result) : Z := r.2.

(** The table returned by [quote.history]: the rendered index labels, one
    per row, and the number of columns.  [df.empty] holds when either axis
    has length 0. *)
Record DataFrame := { df_index : list str; df_columns : nat }.

Definition df_empty (df : DataFrame) : bool :=
  (length (df_index df) =? 0)%nat || (df_columns df =? 0)%nat.

(** The collaborators as seen by one attempt: what the import of [Quote],
    its constructor and [quote.history] do, and what [df.to_parquet] does if
    it is reached.  A raised [Exception] is identified with its text
    [str(e)]. *)
Inductive history_result :=
| HistoryRaises (e : str)
| HistoryReturns (df : option DataFrame).

Inductive to_parquet_result :=
| ParquetWritten
| ParquetRaises (e : str).

Record attempt_world := {
  history : history_result;
  to_parquet : to_parquet_result
}.

(** The provider for one Work Item, by zero-based attempt index. *)
Definition item_world := Z -> attempt_world.

Inductive event :=
| EvGate                                   (* the [with rate_limit_lock] block before a request *)
| EvFetch (symbol start_date end_date : str) (* [Quote(...).history(...)] *)
| EvWrite (file : str)                       (* [df.to_parquet] completed *)
| EvSleep (seconds : Z)                      (* [time.sleep] in the countdown *)
| EvStamp.                                   (* [last_request_time = time.time()] after a wait *)

Definition trace := list event.

Definition is_fetch (e : event) : bool :=
  match e with EvFetch _ _ _ => true | _ => false end.

Definition is_write (e : event) : bool :=
  match e with EvWrite _ => true | _ => false end.

Definition is_sleep (e : event) : bool :=
  match e with EvSleep _ => true | _ => false end.

(** Number of fetch attempts, and seconds spent in backoff waits. *)
Definition attempts (tr : trace) : nat := length (List.filter is_fetch tr).

Definition slept (tr : trace) : Z :=
  fold_right (fun e acc => match e with EvSleep s => s + acc | _ => acc end) 0 tr.

Definition writes (tr : trace) : list str :=
  flat_map (fun e => match e with EvWrite f => [f] | _ => [] end) tr.

(** What one pass through the body of the [for] loop does. *)
Inductive flow :=
| Return (r : result)
| Continue.

(** Exceptions that can leave a call, by the classes the handlers of [main]
    tell apart: [KeyboardInterrupt] and [SystemExit] derive from
    [BaseException] only, everything else that occurs derives from
    [Exception]. *)
Inductive exn :=
| KeyboardInterrupt
| SystemExit (code : Z)
| Exception (e : str).

Inductive outcome (A : Type) :=
| Returns (a : A)
| Raises (x : exn).
Arguments Returns {A} a.
Arguments Raises {A} x.

Definition sys_exit {A : Type} (code : Z) : outcome A := Raises (SystemExit code).

(** How the interpreter ends once [main()] is over: an uncaught [SystemExit]
    gives its code, an uncaught [Exception] a traceback and code 1, an
    uncaught [KeyboardInterrupt] the default handling of SIGINT. *)
Inductive termination :=
| Exit (code : Z)
| Sigint.

Definition interpreter_exit (o : outcome unit) : termination :=
  match o with
  | Returns _ => Exit 0
  | Raises (SystemExit code) => Exit code
  | Raises (Exception _) => Exit 1
  | Raises KeyboardInterrupt => Sigint
  end.

(** ** pathlib: names in one directory *)

Module Path.

(** [name.rfind('.')], scanning from position [i]. *)
Fixpoint rfind_from (c : N) (s : str) (i : Z) : Z :=
  match s with
  | [] => -1
  | x :: s' =>
    let r := rfind_from c s' (i + 1) in
    if r >=? 0 then r else if (x =? c)%N then i else -1
  end.

Definition rfind (c : N) (s : str) : Z := rfind_from c s 0.

(** [PurePath.stem] *)
Definition stem (name : str) : str :=
  let i := rfind 46%N name in
  if (0 <? i) && (i <? len name - 1) then slice_to (Z.to_nat i) name
  else name.

Definition endswith (suffix s : str) : bool :=
  startswith (rev suffix) (rev s).

(** A directory is the set of the names of its entries. *)
Definition directory := gset str.

(** [output_path.glob("*.parquet")] *)
Definition glob_parquet (dir : directory) : gset str :=
  filter (fun name => endswith (u ".parquet") name = true) dir.

End Path.
Import Path.

(** [range(n)] *)
Definition range (n : Z) : list Z := map Z.of_nat (seq 0 (Z.to_nat n)).

(** ** download_vn_stocks.py *)

Module download_vn_stocks.
Section Script.
Context `{U : PyUnicode}.

Definition patterns : list pattern :=
  [ lit (u "sau") ++ [Plus ClsSpace false; Plus ClsDigit true; Plus ClsSpace false]
      ++ lit (u "giây");
    lit (u "after") ++ [Plus ClsSpace false; Plus ClsDigit true; Plus ClsSpace false]
      ++ lit (u "seconds");
    [Plus ClsDigit true; Plus ClsSpace false] ++ lit (u "giây");
    [Plus ClsDigit true; Plus ClsSpace false] ++ lit (u "seconds") ].

(** The [for pattern in patterns] loop of [extract_wait_time]. *)
Fixpoint first_match (ps : list pattern) (error_msg : str) : option Z :=
  match ps with
  | [] => None
  | p :: ps' =>
    match search p error_msg with
    | Some g => Some (py_int g)
    | None => first_match ps' error_msg
    end
  end.

Definition extract_wait_time (error_msg : str) : option Z :=
  first_match patterns error_msg.

Definition wait_with_countdown (wait_time : Z) (symbol : str) : trace :=
  if wait_time <=? 0 then []
  else map (fun _ => EvSleep 1) (range wait_time).

Definition is_rate_limit (error_msg : str) : bool :=
  str_in (u "rate limit") (str_lower error_msg)
  || str_in (u "quá nhiều request") (str_lower error_msg)
  || str_in (u "too many request") (str_lower error_msg)
  || str_in (u "process terminated") (str_lower error_msg).

Definition output_file (symbol : str) : str := symbol ++ u ".parquet".

(** The [try] block: either it returns, or an [Exception] with text
    [e] reaches the handler. *)
Definition try_block (symbol start_date end_date : str) (w : attempt_world)
  : (result + str) * trace :=
  let tr := [EvGate; EvFetch symbol start_date end_date] in
  match history w with
  | HistoryRaises e => (inr e, tr)
  | HistoryReturns None => (inl (symbol, false, u "Không có dữ liệu", 0), tr)
  | HistoryReturns (Some df) =>
    if df_empty df then (inl (symbol, false, u "Không có dữ liệu", 0), tr)
    else
      match to_parquet w with
      | ParquetRaises e => (inr e, tr)
      | ParquetWritten =>
        let row_count := Z.of_nat (length (df_index df)) in
        let first_date := hd [] (df_index df) in
        let last_date := List.last (df_index df) [] in
        (inl (symbol, true,
              u "OK: " ++ first_date ++ u " -> " ++ last_date, row_count),
         tr ++ [EvWrite (output_file symbol)])
      end
  end.

(** The [except Exception as e] block. *)
Definition except_block (symbol : str) (max_retries attempt : Z)
           (error_msg : str) : flow * trace :=
  if is_rate_limit error_msg then
    match extract_wait_time error_msg with
    | Some wait_time =>
      let wait_time := wait_time + 5 in
      if attempt <? max_retries - 1 then
        (Continue, wait_with_countdown wait_time symbol ++ [EvStamp])
      else
        (Return (symbol, false,
                 u "Rate limit (đã retry " ++ str_of_int max_retries
                   ++ u "x): chờ " ++ str_of_int wait_time ++ u "s", 0),
         [])
    | None =>
      let wait_time := 2 ^ attempt * 15 in
      if attempt <? max_retries - 1 then
        (Continue, wait_with_countdown wait_time symbol ++ [EvStamp])
      else
        (Return (symbol, false,
                 u "Rate limit (retried " ++ str_of_int max_retries
                   ++ u "x): " ++ slice_to 80 error_msg, 0),
         [])
    end
  else
    let error_msg :=
      if len error_msg >? 100 then slice_to 100 error_msg ++ u "..."
      else error_msg in
    (Return (symbol, false, error_msg, 0), []).

Definition loop_body (symbol start_date end_date : str) (max_retries : Z)
           (world : item_world) (attempt : Z) : flow * trace :=
  match try_block symbol start_date end_date (world attempt) with
  | (inl r, tr) => (Return r, tr)
  | (inr e, tr) =>
    let '(f, tr') := except_block symbol max_retries attempt e in
    (f, tr ++ tr')
  end.

(** The [for attempt in range(max_retries)] loop and the statement after
    it. *)
Fixpoint for_attempts (symbol start_date end_date : str) (max_retries : Z)
         (world : item_world) (todo : list Z) : result * trace :=
  match todo with
  | [] =>
    ((symbol, false,
      u "Failed after " ++ str_of_int max_retries ++ u " attempts", 0), [])
  | attempt :: todo' =>
    match loop_body symbol start_date end_date max_retries world attempt with
    | (Return r, tr) => (r, tr)
    | (Continue, tr) =>
      let '(r, tr') :=
        for_attempts symbol start_date end_date max_retries world todo' in
      (r, tr ++ tr')
    end
  end.

Definition download_symbol_data (symbol start_date end_date : str)
           (max_retries : Z) (world : item_world) : result * trace :=
  for_attempts symbol start_date end_date max_retries world
               (range max_retries).

(** [existing_files] and [symbols_to_download] of
    [download_all_symbols]. *)
Definition existing_files (dir : directory) : gset str :=
  set_map stem (glob_parquet dir).

Definition symbols_to_download (symbols : list str) (dir : directory)
  : list str :=
  List.filter (fun s => bool_decide (s ∉ existing_files dir)) symbols.

(** The batch: the symbols submitted to the executor, what each
    submitted call returns (in submission order), and the files the
    calls write.  Each call touches only its own file, so the files
    written do not depend on how the workers interleave.  What the
    driver does with a completed future - counters, the pause between
    items, the rows of manifest.csv and failed.csv - is not part of
    this record; nor is its second-chance retry, which runs only when
    the call itself raises, and here every call returns. *)
Record batch := {
  submitted : list str;
  outcomes : list result;
  written : list str
}.

Definition download_all_symbols (start_date end_date : str)
           (symbols : list str) (dir : directory)
           (world : str -> item_world) : option batch :=
  match symbols with
  | [] => None
  | _ =>
    match symbols_to_download symbols dir with
    | [] => None
    | todo =>
      let runs :=
        map (fun symbol =>
               download_symbol_data symbol start_date end_date 5
                                    (world symbol)) todo in
      Some {| submitted := todo;
              outcomes := map fst runs;
              written := flat_map (fun r => writes (snd r)) runs |}
    end
  end.

(** The Work Items a run processes. *)
Definition processed (b : option batch) : list str :=
  match b with
  | None => []
  | Some b => submitted b
  end.

(** The output directory once the run is over: [others] are the files
    the driver itself writes (manifest.csv, failed.csv). *)
Definition dir_after (dir : directory) (b : option batch)
           (others : gset str) : directory :=
  match b with
  | None => dir
  | Some b => dir ∪ list_to_set (written b) ∪ others
  end.

(** [main]: [call] is how the call of [download_all_symbols] ends. *)
Definition main (call : outcome (option batch)) : outcome unit :=
  match call with
  | Returns _ => Returns tt
  | Raises KeyboardInterrupt => sys_exit 0
  | Raises (Exception e) => sys_exit 1
  | Raises x => Raises x
  end.

(** A run of the script: [escaping] is an exception raised outside the
    per-item boundary, if any (an operator's Ctrl-C, a failing
    [mkdir]). *)
Definition run_main (escaping : option exn) (start_date end_date : str)
           (symbols : list str) (dir : directory)
           (world : str -> item_world) : termination :=
  interpreter_exit
    (main (match escaping with
           | Some x => Raises x
           | None =>
             Returns (download_all_symbols start_date end_date symbols
                                           dir world)
           end)).

End Script.
End download_vn_stocks.

(** ** download_vn30.py *)

Module download_vn30.
Section Script.
Context `{U : PyUnicode}.

Definition patterns : list pattern :=
  [ lit (u "sau") ++ [Plus ClsSpace false; Plus ClsDigit true; Plus ClsSpace false]
      ++ lit (u "giây");
    lit (u "after") ++ [Plus ClsSpace false; Plus ClsDigit true; Plus ClsSpace false]
      ++ lit (u "seconds");
    [Plus ClsDigit true; Plus ClsSpace false] ++ lit (u "giây");
    [Plus ClsDigit true; Plus ClsSpace false] ++ lit (u "seconds") ].

Fixpoint first_match (ps : list pattern) (error_msg : str) : option Z :=
  match ps with
  | [] => None
  | p :: ps' =>
    match search p error_msg with
    | Some g => Some (py_int g)
    | None => first_match ps' error_msg
    end
  end.

Definition extract_wait_time (error_msg : str) : option Z :=
  first_match patterns error_msg.

Definition wait_with_countdown (wait_time : Z) (symbol : str) : trace :=
  if wait_time <=? 0 then []
  else map (fun _ => EvSleep 1) (range wait_time).

Definition is_rate_limit (error_msg : str) : bool :=
  str_in (u "rate limit") (str_lower error_msg)
  || str_in (u "quá nhiều request") (str_lower error_msg)
  || str_in (u "too many request") (str_lower error_msg)
  || str_in (u "process terminated") (str_lower error_msg).

Definition symbol : str := u "VN30".

Definition try_block (start_date end_date : str) (w : attempt_world)
  : (result + str) * trace :=
  let tr := [EvGate; EvFetch symbol start_date end_date] in
  match history w with
  | HistoryRaises e => (inr e, tr)
  | HistoryReturns None => (inl (symbol, false, u "Không có dữ liệu", 0), tr)
  | HistoryReturns (Some df) =>
    if df_empty df then (inl (symbol, false, u "Không có dữ liệu", 0), tr)
    else
      match to_parquet w with
      | ParquetRaises e => (inr e, tr)
      | ParquetWritten =>
        let row_count := Z.of_nat (length (df_index df)) in
        let first_date := hd [] (df_index df) in
        let last_date := List.last (df_index df) [] in
        (inl (symbol, true,
              u "OK: " ++ first_date ++ u " -> " ++ last_date, row_count),
         tr ++ [EvWrite (symbol ++ u ".parquet")])
      end
  end.

Definition except_block (max_retries attempt : Z) (error_msg : str)
  : flow * trace :=
  if is_rate_limit error_msg then
    match extract_wait_time error_msg with
    | Some wait_time =>
      let wait_time := wait_time + 5 in
      if attempt <? max_retries - 1 then
        (Continue, wait_with_countdown wait_time symbol ++ [EvStamp])
      else
        (Return (symbol, false,
                 u "Rate limit (đã retry " ++ str_of_int max_retries
                   ++ u "x): chờ " ++ str_of_int wait_time ++ u "s", 0),
         [])
    | None =>
      let wait_time := 2 ^ attempt * 15 in
      if attempt <? max_retries - 1 then
        (Continue, wait_with_countdown wait_time symbol ++ [EvStamp])
      else
        let msg := u "Rate limit (retried " ++ str_of_int max_retries
                     ++ u "x): " ++ slice_to 80 error_msg in
        (Return (symbol, false, msg, 0), [])
    end
  else
    let error_msg :=
      if len error_msg >? 100 then slice_to 100 error_msg ++ u "..."
      else error_msg in
    (Return (symbol, false, error_msg, 0), []).

Definition loop_body (start_date end_date : str) (max_retries : Z)
           (world : item_world) (attempt : Z) : flow * trace :=
  match try_block start_date end_date (world attempt) with
  | (inl r, tr) => (Return r, tr)
  | (inr e, tr) =>
    let '(f, tr') := except_block max_retries attempt e in
    (f, tr ++ tr')
  end.

Fixpoint for_attempts (start_date end_date : str) (max_retries : Z)
         (world : item_world) (todo : list Z) : result * trace :=
  match todo with
  | [] =>
    ((symbol, false,
      u "Failed after " ++ str_of_int max_retries ++ u " attempts", 0), [])
  | attempt :: todo' =>
    match loop_body start_date end_date max_retries world attempt with
    | (Return r, tr) => (r, tr)
    | (Continue, tr) =>
      let '(r, tr') :=
        for_attempts start_date end_date max_retries world todo' in
      (r, tr ++ tr')
    end
  end.

Definition download_vn30_data (start_date end_date : str)
           (max_retries : Z) (world : item_world) : result * trace :=
  for_attempts start_date end_date max_retries world (range max_retries).

(** [response.strip()] *)
Definition strip (s : str) : str :=
  let lstrip := fix lstrip (s : str) : str :=
    match s with
    | c :: s' => if re_isspace c then lstrip s' else s
    | [] => []
    end in
  rev (lstrip (rev (lstrip s))).

Definition str_eqb (a b : str) : bool := bool_decide (a = b).

(** [download_vn30]: [file_exists] is [output_file.exists()], [response]
    is how [input(...)] ends when it is called. *)
Definition download_vn30 (start_date end_date : str) (force : bool)
           (file_exists : bool) (response : outcome str)
           (world : item_world) : outcome unit :=
  let download :=
    let '(_, success, _, _) :=
      fst (download_vn30_data start_date end_date 5 world) in
    if success then Returns tt else sys_exit 1 in
  if file_exists && negb force then
    match response with
    | Raises x => Raises x
    | Returns response =>
      if negb (str_eqb (str_lower (strip response)) (u "y"))
      then Returns tt
      else download
    end
  else download.

Definition main (call : outcome unit) : outcome unit :=
  match call with
  | Returns _ => Returns tt
  | Raises KeyboardInterrupt => sys_exit 0
  | Raises (Exception e) => sys_exit 1
  | Raises x => Raises x
  end.

Definition run_main (escaping : option exn) (start_date end_date : str)
           (force file_exists : bool) (response : outcome str)
           (world : item_world) : termination :=
  interpreter_exit
    (main (match escaping with
           | Some x => Raises x
           | None =>
             download_vn30 start_date end_date force file_exists
                           response world
           end)).

End Script.
End download_vn30.

(** ** The rate gate under concurrent callers

    Every caller of [download_symbol_data] runs the block

      with rate_limit_lock:
          elapsed = time.time() - last_request_time
          if elapsed < min_request_interval:
              time.sleep(min_request_interval - elapsed)
          last_request_time = time.time()

    before a request, and the block

      with rate_limit_lock:
          last_request_time = time.time()

    after a backoff wait.  Threads interleave statement by statement; the
    lock is the only synchronisation.  Time is counted in ticks of one
    clock that never runs backwards and is read exactly, and [time.sleep]
    returns no earlier than asked. *)

Module RateGate.

(** Where a thread is. *)
Inductive pc :=
| Idle                      (* outside the two blocks *)
| AtCheck                   (* lock taken, about to compute [elapsed] *)
| Sleeping (wake : Z)       (* inside [time.sleep(wait_needed)] *)
| AtStamp                   (* about to run [last_request_time = time.time()] of the gate *)
| AtBackoffStamp            (* lock taken after a wait, about to stamp *)
| AtLeave.                  (* at the end of a [with] block *)

Record state := {
  clock : Z;
  last_request_time : Z;
  lock : option nat;
  pcs : gmap nat pc;
  grants : list Z  (* the times of the granted acquisitions, latest first *)
}.

Definition pc_of (s : state) (t : nat) : pc := default Idle (pcs s !! t).

Definition set_pc (t : nat) (p : pc) (s : state) : state :=
  {| clock := clock s; last_request_time := last_request_time s;
     lock := lock s; pcs := <[t := p]> (pcs s); grants := grants s |}.

Inductive action :=
| Tick (d : Z)               (* time passes *)
| Enter (t : nat)            (* [with rate_limit_lock:] of the gate *)
| Check (t : nat)            (* [elapsed = ...] and the test *)
| Wake (t : nat)             (* [time.sleep] returns *)
| Stamp (t : nat)            (* the gate records the request *)
| EnterBackoff (t : nat)     (* [with rate_limit_lock:] after a wait *)
| StampBackoff (t : nat)
| Leave (t : nat).           (* the [with] block releases the lock *)

Section Gate.
Variable min_request_interval : Z.

(** One statement of one thread; [None] when the statement cannot run
    in this state. *)
Definition step (a : action) (s : state) : option state :=
  match a with
  | Tick d =>
    if 0 <=? d then
      Some {| clock := clock s + d;
              last_request_time := last_request_time s;
              lock := lock s; pcs := pcs s; grants := grants s |}
    else None
  | Enter t =>
    match lock s, pc_of s t with
    | None, Idle =>
      Some (set_pc t AtCheck
              {| clock := clock s;
                 last_request_time := last_request_time s;
                 lock := Some t; pcs := pcs s; grants := grants s |})
    | _, _ => None
    end
  | Check t =>
    match pc_of s t with
    | AtCheck =>
      let elapsed := clock s - last_request_time s in
      if elapsed <? min_request_interval then
        let wait_needed := min_request_interval - elapsed in
        Some (set_pc t (Sleeping (clock s + wait_needed)) s)
      else Some (set_pc t AtStamp s)
    | _ => None
    end
  | Wake t =>
    match pc_of s t with
    | Sleeping wake =>
      if wake <=? clock s then Some (set_pc t AtStamp s) else None
    | _ => None
    end
  | Stamp t =>
    match pc_of s t with
    | AtStamp =>
      Some (set_pc t AtLeave
              {| clock := clock s; last_request_time := clock s;
                 lock := lock s; pcs := pcs s;
                 grants := clock s :: grants s |})
    | _ => None
    end
  | EnterBackoff t =>
    match lock s, pc_of s t with
    | None, Idle =>
      Some (set_pc t AtBackoffStamp
              {| clock := clock s;
                 last_request_time := last_request_time s;
                 lock := Some t; pcs := pcs s; grants := grants s |})
    | _, _ => None
    end
  | StampBackoff t =>
    match pc_of s t with
    | AtBackoffStamp =>
      Some (set_pc t AtLeave
              {| clock := clock s; last_request_time := clock s;
                 lock := lock s; pcs := pcs s; grants := grants s |})
    | _ => None
    end
  | Leave t =>
    match pc_of s t with
    | AtLeave =>
      Some (set_pc t Idle
              {| clock := clock s;
                 last_request_time := last_request_time s;
                 lock := None; pcs := pcs s; grants := grants s |})
    | _ => None
    end
  end.

(** An interleaving is a sequence of actions. *)
Fixpoint run (acts : list action) (s : state) : option state :=
  match acts with
  | [] => Some s
  | a :: acts' =>
    match step a s with
    | Some s' => run acts' s'
    | None => None
    end
  end.

(** Consecutive grants are at least [min_request_interval] apart. *)
Fixpoint spaced (gs : list Z) : Prop :=
  match gs with
  | later :: (earlier :: _) as rest =>
    earlier + min_request_interval <= later /\ spaced rest
  | _ => True
  end.

End Gate.

(** The module is loaded at time [now]: [last_request_time = 0], the lock
    is free and no request has been made. *)
Definition init (now : Z) : state :=
  {| clock := now; last_request_time := 0; lock := None;
     pcs := ∅; grants := [] |}.

(** A thread is inside a block protected by the lock. *)
Definition in_block (s : state) (t : nat) : Prop := pc_of s t <> Idle.

(** A thread is between the check of the elapsed time and the update of
    [last_request_time]. *)
Definition between_check_and_update (s : state) (t : nat) : Prop :=
  pc_of s t = AtCheck \/ (exists w, pc_of s t = Sleeping w)
  \/ pc_of s t = AtStamp.

End RateGate.

(** ** A Unicode table for running the embedding

    The real tables restricted to Basic Latin, Latin-1 Supplement, Latin
    Extended Additional (U+1EA0 to U+1EFF) and the other Vietnamese letters
    (U+0102, U+0110, U+0128, U+0168, U+01A0, U+01AF and their lower-case
    forms); code points outside are treated as caseless symbols. *)

Module Fragment.

Definition cp_lower (c : N) : N :=
  if ((65 <=? c) && (c <=? 90))%N then (c + 32)%N
  else if ((192 <=? c) && (c <=? 222) && negb (c =? 215))%N then (c + 32)%N
  else if ((c =? 258) || (c =? 272) || (c =? 296) || (c =? 360)
           || (c =? 416) || (c =? 431))%N then (c + 1)%N
  else if ((7840 <=? c) && (c <=? 7935) && N.even c)%N then (c + 1)%N
  else c.

Definition lower (s : str) : str := map cp_lower s.

Definition isspace (c : N) : bool :=
  (ascii_isspace c || (c =? 133) || (c =? 160))%N.

Definition isdigit (c : N) : bool := ascii_isdigit c.

Definition digit (c : N) : Z := Z.of_N c - 48.

(** A literal matches a character when their lower-case forms agree; the
    literals s and i also match U+017F and U+0131. *)
Definition ci_eq (c x : N) : bool :=
  ((cp_lower x =? cp_lower c)
   || ((cp_lower c =? 115) && (cp_lower x =? 383))
   || ((cp_lower c =? 105) && (cp_lower x =? 305)))%N.

End Fragment.

(** ** Vocabulary of the claims *)

(** The text of the exception that reaches the handler of an attempt, if
    one does. *)
Definition attempt_raises (w : attempt_world) : option str :=
  match history w with
  | HistoryRaises e => Some e
  | HistoryReturns None => None
  | HistoryReturns (Some df) =>
    if df_empty df then None
    else match to_parquet w with
         | ParquetRaises e => Some e
         | ParquetWritten => None
         end
  end.

(** The fetch of an attempt returns an empty or absent row set. *)
Definition no_rows (w : attempt_world) : bool :=
  match history w with
  | HistoryRaises _ => false
  | HistoryReturns None => true
  | HistoryReturns (Some df) => df_empty df
  end.

(** The attempt raises an error that is classified as throttling. *)
Definition throttled `{U : PyUnicode} (w : attempt_world) : Prop :=
  exists e, attempt_raises w = Some e
            /\ download_vn_stocks.is_rate_limit e = true.

Definition throttle_phrases : list str :=
  [u "rate limit"; u "too many request"; u "process terminated";
   u "quá nhiều request"].

(** The message of a failure that is not retried. *)
Definition truncated (error_msg : str) : str :=
  if 100 <? len error_msg then slice_to 100 error_msg ++ u "..."
  else error_msg.

(** Sample providers for running the embedding. *)
Definition raising (e : str) : attempt_world :=
  {| history := HistoryRaises e; to_parquet := ParquetWritten |}.

Definition returning (df : option DataFrame) : attempt_world :=
  {| history := HistoryReturns df; to_parquet := ParquetWritten |}.

Definition always (w : attempt_world) : item_world := fun _ => w.

(** Raises [e] on the first attempt and returns [df] afterwards. *)
Definition once_then (e : str) (df : DataFrame) : item_world :=
  fun attempt => if attempt =? 0 then raising e else returning (Some df).

Definition rows (labels : list str) : DataFrame :=
  {| df_index := labels; df_columns := 6 |}.

(** Throttled on the first attempt, no rows on the second. *)
Definition throttled_then_empty : item_world :=
  fun attempt =>
    if attempt =? 0 then raising (u "rate limit, retry after 10 seconds")
    else returning None.

(** The four patterns of [extract_wait_time], by name. *)
Definition pattern_sau : pattern :=
  lit (u "sau") ++ [Plus ClsSpace false; Plus ClsDigit true; Plus ClsSpace false]
    ++ lit (u "giây").

Definition pattern_after : pattern :=
  lit (u "after") ++ [Plus ClsSpace false; Plus ClsDigit true; Plus ClsSpace false]
    ++ lit (u "seconds").

Definition pattern_giay : pattern :=
  [Plus ClsDigit true; Plus ClsSpace false] ++ lit (u "giây").

Definition pattern_seconds : pattern :=
  [Plus ClsDigit true; Plus ClsSpace false] ++ lit (u "seconds").

(** [word] is the literal [w] up to letter case, as [re.IGNORECASE] sees
    it. *)
Definition ci_word `{U : PyUnicode} (w word : str) : Prop :=
  Forall2 (fun c x => re_ci_eq c x = true) w word.

(** The pattern [p] matches at no start position before [n] in [s]. *)
Definition no_match_before `{U : PyUnicode} (p : pattern) (n : nat) (s : str)
  : Prop :=
  forall i, (i < n)%nat -> match_here p [] (skipn i s) = None.

(** Every capturing group of the pattern is a run of digits. *)
Definition groups_are_digits (p : pattern) : bool :=
  forallb (fun it => match it with
                     | Plus ClsSpace true => false
                     | _ => true
                     end) p.

(** Two callers of the gate: thread 0 passes at once, thread 1 arrives
    while the interval is running and sleeps it out. *)
Definition sample_schedule : list RateGate.action :=
  [RateGate.Enter 0; RateGate.Check 0; RateGate.Stamp 0; RateGate.Leave 0;
   RateGate.Enter 1; RateGate.Check 1; RateGate.Tick 2; RateGate.Wake 1;
   RateGate.Stamp 1; RateGate.Leave 1].

(** A ticker symbol: not empty, and not beginning with a dot. *)
Definition ticker (s : str) : Prop :=
  match s with
  | [] => False
  | c :: _ => c <> 46%N
  end.

(** The items of a run that ended FAILED. *)
Definition failed_symbols (b : option download_vn_stocks.batch) : list str :=
  match b with
  | None => []
  | Some b =>
    map res_symbol
        (List.filter (fun r => negb (res_success r))
                     (download_vn_stocks.outcomes b))
  end.

(** The files the driver itself leaves in the output directory. *)
Definition driver_files : gset str :=
  {[ u "manifest.csv"; u "failed.csv" ]}.

(** A provider with rows for every symbol, and one without data for any. *)
Definition provider_with_data : str -> item_world :=
  fun _ => always (returning (Some (rows [u "2024-01-02"; u "2024-01-03"]))).

Definition provider_without_data : str -> item_world :=
  fun _ => always (returning None).

(** The text [rest] does not go on with a character of the class [t]. *)
Definition stops (t : N -> bool) (rest : str) : Prop :=
  match rest with
  | [] => True
  | c :: _ => t c = false
  end.

(** What holds in every state an interleaving of the gate can reach. *)
Record gate_inv (min_request_interval : Z) (s : RateGate.state) : Prop := {
  grants_past :
    forall g, In g (RateGate.grants s) -> g <= RateGate.clock s;
  last_grant_stamped :
    forall g, head (RateGate.grants s) = Some g ->
              g <= RateGate.last_request_time s;
  grants_spaced : RateGate.spaced min_request_interval (RateGate.grants s);
  lock_held :
    forall t, RateGate.in_block s t -> RateGate.lock s = Some t;
  sleeper_wakes_late :
    forall t w, RateGate.pc_of s t = RateGate.Sleeping w ->
                RateGate.last_request_time s + min_request_interval <= w;
  stamper_is_late :
    forall t, RateGate.pc_of s t = RateGate.AtStamp ->
              RateGate.last_request_time s + min_request_interval
              <= RateGate.clock s
}.

(** The call the driver submits for a symbol. *)
Definition run_item `{U : PyUnicode} (start_date end_date : str)
           (world : str -> item_world) (symbol : str) : result * trace :=
  download_vn_stocks.download_symbol_data symbol start_date end_date 5
                                          (world symbol).

(** ** The shape of a trace of the retry loop

    A run is a sequence of passes: the gate, the fetch, then either the
    write that ends a successful run, or nothing more, or a countdown
    closed by a stamp and followed by the next pass. *)

Inductive phase :=
| PStart   (* nothing has happened *)
| PGate    (* the gate has been passed *)
| PFetch   (* the fetch has been made *)
| PWait    (* inside a countdown *)
| PStamp   (* the wait is over and stamped *)
| PDone.   (* the output file has been written *)

Definition phase_step (p : phase) (e : event) : option phase :=
  match p, e with
  | PStart, EvGate => Some PGate
  | PStamp, EvGate => Some PGate
  | PGate, EvFetch _ _ _ => Some PFetch
  | PFetch, EvWrite _ => Some PDone
  | PFetch, EvSleep _ => Some PWait
  | PWait, EvSleep _ => Some PWait
  | PFetch, EvStamp => Some PStamp
  | PWait, EvStamp => Some PStamp
  | _, _ => None
  end.

Fixpoint phase_run (p : phase) (tr : trace) : option phase :=
  match tr with
  | [] => Some p
  | e :: tr' =>
    match phase_step p e with
    | Some p' => phase_run p' tr'
    | None => None
    end
  end.

(** A complete run: no pass at all, or a last pass that ends with its fetch
    or with the write. *)
Definition well_formed (tr : trace) : bool :=
  match phase_run PStart tr with
  | Some PStart => true
  | Some PFetch => true
  | Some PDone => true
  | _ => false
  end.

(** All the requests of a trace are for one Work Item. *)
Definition fetches_only (symbol start_date end_date : str) (tr : trace) : Prop :=
  forall s a b, In (EvFetch s a b) tr ->
                s = symbol /\ a = start_date /\ b = end_date.

(** The attempt raises a throttling error that carries no wait hint. *)
Definition throttled_blind `{U : PyUnicode} (w : attempt_world) : Prop :=
  exists e, attempt_raises w = Some e
            /\ download_vn_stocks.is_rate_limit e = true
            /\ download_vn_stocks.extract_wait_time e = None.

(** The text contains the run of digits [digits], then whitespace, then the
    word "giây" or "seconds" in any letter case. *)
Definition bare_hint `{U : PyUnicode} (error_msg digits : str) : Prop :=
  exists pre spaces word post,
    error_msg = pre ++ digits ++ spaces ++ word ++ post
    /\ digits <> [] /\ Forall (fun c => re_isdigit c = true) digits
    /\ spaces <> [] /\ Forall (fun c => re_isspace c = true) spaces
    /\ (ci_word (u "giây") word \/ ci_word (u "seconds") word).

(** The files a batch run writes, and whether the call for a symbol
    succeeds. *)
Definition files_written (b : option download_vn_stocks.batch) : list str :=
  match b with
  | None => []
  | Some b => download_vn_stocks.written b
  end.

Definition succeeds `{U : PyUnicode} (start_date end_date : str)
           (world : str -> item_world) (symbol : str) : bool :=
  res_success (fst (run_item start_date end_date world symbol)).

(** ** download_vn_stocks.py: the symbol source *)

Module symbol_source.

(** The table [Listing().all_symbols()] returns: the length of its index
    and its columns by name; a cell is a text or missing. *)
Record ListingFrame := {
  lf_rows : nat;
  lf_columns : gmap str (list (option str))
}.

Definition lf_empty (df : ListingFrame) : bool :=
  (lf_rows df =? 0)%nat || bool_decide (lf_columns df = ∅).

(** How the import, the constructor and the call end. *)
Inductive listing_result :=
| ListingRaises (e : str)
| ListingReturns (df : option ListingFrame).

(** [Series.dropna()] *)
Definition dropna (cells : list (option str)) : list str :=
  flat_map (fun c => match c with Some s => [s] | None => [] end) cells.

(** [Series.unique()]: the values in order of first appearance. *)
Fixpoint unique (l : list str) : list str :=
  match l with
  | [] => []
  | x :: l' => x :: List.filter (fun y => negb (bool_decide (y = x))) (unique l')
  end.

(** [a <= b] on [str]: code point by code point, a proper prefix first. *)
Fixpoint str_leb (a b : str) : bool :=
  match a, b with
  | [], _ => true
  | _ :: _, [] => false
  | x :: a', y :: b' =>
    if (x <? y)%N then true
    else if (x =? y)%N then str_leb a' b'
    else false
  end.

(** [sorted(l)]: a stable sort into ascending order. *)
Fixpoint insert_sorted (x : str) (l : list str) : list str :=
  match l with
  | [] => [x]
  | y :: l' => if str_leb x y then x :: l else y :: insert_sorted x l'
  end.

Definition sorted (l : list str) : list str := fold_right insert_sorted [] l.

Definition get_all_symbols (listing : listing_result) : list str :=
  match listing with
  | ListingRaises _ => []
  | ListingReturns None => []
  | ListingReturns (Some df) =>
    if lf_empty df then []
    else
      match lf_columns df !! u "symbol" with
      | Some cells => sorted (unique (dropna cells))
      | None =>
        match lf_columns df !! u "ticker" with
        | Some cells => sorted (unique (dropna cells))
        | None => []
        end
      end
  end.

End symbol_source.

(** ** download_vn_stocks.py: what the driver does with the futures *)

Module batch_results.
Section Driver.
Context `{U : PyUnicode}.
Variables (start_date end_date : str).

(** The text of the [UnboundLocalError] raised when the local variable
    [last_request_time] of [download_all_symbols] is read before an
    assignment has given it a value.  The function assigns the name
    without declaring it [global], so inside it the name is a local. *)
Variable unbound_local_error : str.

(** The provider as a second-chance call sees it. *)
Variable retry_world : str -> item_world.

Inductive driver_event :=
| Pause              (* the sleep between items, under the lock *)
| Inner (e : event). (* an event of a countdown or of a second-chance call *)

Record tally := {
  results : list result;
  success_count : Z;
  fail_count : Z;
  total_rows : Z;
  last_request_bound : bool; (* the local [last_request_time] has a value *)
  log : list driver_event
}.

Definition start : tally :=
  {| results := []; success_count := 0; fail_count := 0; total_rows := 0;
     last_request_bound := false; log := [] |}.

(** [extract_wait_time(error_msg) or 20] *)
Definition or_20 (wait_time : option Z) : Z :=
  match wait_time with
  | Some n => if n =? 0 then 20 else n
  | None => 20
  end.

(** The [except Exception as e] block of the loop over the futures. *)
Definition on_exception (symbol error_msg : str) (st : tally) : tally :=
  let fail_count := fail_count st + 1 in
  if download_vn_stocks.is_rate_limit error_msg then
    let wait_time := or_20 (download_vn_stocks.extract_wait_time error_msg) in
    let wait_time := wait_time + 5 in
    let waited :=
      download_vn_stocks.wait_with_countdown wait_time symbol ++ [EvStamp] in
    let '(retry_result, tr) :=
      download_vn_stocks.download_symbol_data symbol start_date end_date 5
                                              (retry_world symbol) in
    let '(symbol_retry, success_retry, message_retry, row_count_retry) :=
      retry_result in
    {| results := results st ++ [retry_result];
       success_count :=
         if success_retry then success_count st + 1 else success_count st;
       fail_count := if success_retry then fail_count - 1 else fail_count;
       total_rows :=
         if success_retry then total_rows st + row_count_retry
         else total_rows st;
       last_request_bound := true;
       log := log st ++ map Inner (waited ++ tr) |}
  else
    {| results := results st ++ [(symbol, false, error_msg, 0)];
       success_count := success_count st;
       fail_count := fail_count;
       total_rows := total_rows st;
       last_request_bound := last_request_bound st;
       log := log st |}.

(** One turn of [for future in as_completed(futures)]: [future_result] is
    how [future.result()] ends. *)
Definition on_future (symbol : str) (future_result : outcome result)
           (st : tally) : outcome tally :=
  match future_result with
  | Raises (Exception e) => Returns (on_exception symbol e st)
  | Raises x => Raises x
  | Returns result =>
    let '(symbol, success, message, row_count) := result in
    let st :=
      {| results := results st ++ [result];
         success_count := if success then success_count st + 1
                          else success_count st;
         fail_count := if success then fail_count st else fail_count st + 1;
         total_rows := if success then total_rows st + row_count
                       else total_rows st;
         last_request_bound := last_request_bound st;
         log := log st |} in
    if last_request_bound st then
      Returns {| results := results st; success_count := success_count st;
                 fail_count := fail_count st; total_rows := total_rows st;
                 last_request_bound := true; log := log st ++ [Pause] |}
    else Returns (on_exception symbol unbound_local_error st)
  end.

(** The loop; [completed] lists the futures in the order they complete,
    each with the symbol it was submitted for. *)
Fixpoint as_completed (completed : list (str * outcome result)) (st : tally)
  : outcome tally :=
  match completed with
  | [] => Returns st
  | (symbol, future_result) :: rest =>
    match on_future symbol future_result st with
    | Returns st' => as_completed rest st'
    | Raises x => Raises x
    end
  end.

End Driver.

(** manifest.csv and failed.csv *)
Record manifest_row := {
  row_symbol : str;
  row_status : str;
  row_message : str;
  row_count : Z;
  row_file : option str
}.

Definition manifest_data (results : list result) : list manifest_row :=
  map (fun r : result =>
         let '(symbol, success, message, row_count) := r in
         {| row_symbol := symbol;
            row_status := if success then u "SUCCESS" else u "FAILED";
            row_message := message;
            row_count := row_count;
            row_file := if success then Some (symbol ++ u ".parquet")
                        else None |})
      results.

Definition failed_symbols (results : list result) : list str :=
  map res_symbol (List.filter (fun r => negb (res_success r)) results).

End batch_results.

(** Counting the records of a list of results. *)
Definition count_success (rs : list result) : Z :=
  Z.of_nat (length (List.filter res_success rs)).

Definition count_failed (rs : list result) : Z :=
  Z.of_nat (length (List.filter (fun r => negb (res_success r)) rs)).

Definition rows_of_successes (rs : list result) : Z :=
  fold_right (fun r acc => if res_success r then res_row_count r + acc else acc)
             0 rs.

(** The futures of calls that all return, in the order they complete. *)
Definition returned (rs : list result) : list (str * outcome result) :=
  map (fun r => (res_symbol r, Returns r)) rs.

(** The records the driver keeps for a call that returns [r] while the
    local [last_request_time] has no value. *)
Definition doubled (unbound_local_error : str) (r : result) : list result :=
  [r; (res_symbol r, false, unbound_local_error, 0)].

(** The message of the interpreter (3.11 and later) for the read of the
    unassigned local. *)
Definition unbound_local_message : str :=
  u "cannot access local variable 'last_request_time' where it is not associated with a value".

(** The counters of the driver agree with the records it has kept. *)
Definition agrees (st : batch_results.tally) : Prop :=
  batch_results.success_count st = count_success (batch_results.results st)
  /\ batch_results.fail_count st = count_failed (batch_results.results st)
  /\ batch_results.total_rows st
     = rows_of_successes (batch_results.results st).

(** The order [<=] of Python on [str]. *)
Definition str_le (a b : str) : Prop := symbol_source.str_leb a b = true.

(** ** Schedules of the rate gate *)

(** The statements that take thread [t] from where it is to the end of the
    block it is in, letting time pass where it sleeps. *)
Definition finish_schedule (min_request_interval : Z) (s : RateGate.state)
           (t : nat) : list RateGate.action :=
  match RateGate.pc_of s t with
  | RateGate.Idle => []
  | RateGate.AtCheck =>
    let elapsed := RateGate.clock s - RateGate.last_request_time s in
    if elapsed <? min_request_interval then
      [RateGate.Check t; RateGate.Tick (min_request_interval - elapsed);
       RateGate.Wake t; RateGate.Stamp t; RateGate.Leave t]
    else [RateGate.Check t; RateGate.Stamp t; RateGate.Leave t]
  | RateGate.Sleeping wake =>
    [RateGate.Tick (Z.max 0 (wake - RateGate.clock s)); RateGate.Wake t;
     RateGate.Stamp t; RateGate.Leave t]
  | RateGate.AtStamp => [RateGate.Stamp t; RateGate.Leave t]
  | RateGate.AtBackoffStamp => [RateGate.StampBackoff t; RateGate.Leave t]
  | RateGate.AtLeave => [RateGate.Leave t]
  end.

(** Thread [t] passes the gate with nobody in its way. *)
Definition acquire_schedule (min_request_interval : Z) (s : RateGate.state)
           (t : nat) : list RateGate.action :=
  let elapsed := RateGate.clock s - RateGate.last_request_time s in
  if elapsed <? min_request_interval then
    [RateGate.Enter t; RateGate.Check t;
     RateGate.Tick (min_request_interval - elapsed);
     RateGate.Wake t; RateGate.Stamp t; RateGate.Leave t]
  else [RateGate.Enter t; RateGate.Check t; RateGate.Stamp t; RateGate.Leave t].

(** The stamp is not in the future, and a sleeper wakes when the interval
    since the stamp is over. *)
Definition gate_timing (min_request_interval : Z) (s : RateGate.state) : Prop :=
  RateGate.last_request_time s <= RateGate.clock s
  /\ forall t wake,
      RateGate.pc_of s t = RateGate.Sleeping wake ->
      wake = RateGate.last_request_time s + min_request_interval.

(** Thread 0 has passed the gate; thread 1 has arrived at once and is
    asleep. *)
Definition sleeper_schedule : list RateGate.action :=
  [RateGate.Enter 0; RateGate.Check 0; RateGate.Stamp 0; RateGate.Leave 0;
   RateGate.Enter 1; RateGate.Check 1].

(** ** The fragment satisfies the laws of the tables *)

Ltac n_cases :=
  repeat (match goal with
          | |- context [(?a <=? ?b)%N] => destruct (N.leb_spec a b)
          | |- context [(?a =? ?b)%N] => destruct (N.eqb_spec a b)
          | |- context [(?a <? ?b)%N] => destruct (N.ltb_spec a b)
          end; simpl);
  try lia; try reflexivity.

Lemma fragment_lower_ascii (s : str) :
  is_ascii s = true -> Fragment.lower s = map ascii_lower s.
Proof.
  unfold Fragment.lower.
  induction s as [|c s IH]; simpl; [reflexivity|].
  intros H. apply andb_true_iff in H as [Hc Hs].
  apply N.ltb_lt in Hc. rewrite (IH Hs). f_equal.
  unfold Fragment.cp_lower, ascii_lower. n_cases.
Qed.

Lemma fragment_isspace_ascii (c : N) :
  (c < 128)%N -> Fragment.isspace c = ascii_isspace c.
Proof. intros H. unfold Fragment.isspace, ascii_isspace. n_cases. Qed.

Lemma fragment_digit_nonneg (c : N) :
  Fragment.isdigit c = true -> 0 <= Fragment.digit c.
Proof.
  unfold Fragment.isdigit, Fragment.digit, ascii_isdigit.
  intros H. apply andb_true_iff in H as [H _]. apply N.leb_le in H. lia.
Qed.

Lemma fragment_ci_eq_refl (c : N) : Fragment.ci_eq c c = true.
Proof. unfold Fragment.ci_eq. rewrite N.eqb_refl. reflexivity. Qed.

#[export] Instance fragment : PyUnicode := {|
  str_lower := Fragment.lower;
  re_isspace := Fragment.isspace;
  re_isdigit := Fragment.isdigit;
  digit_value := Fragment.digit;
  re_ci_eq := Fragment.ci_eq;
  lower_ascii := fragment_lower_ascii;
  isspace_ascii := fragment_isspace_ascii;
  isdigit_ascii := fun c _ => eq_refl;
  digit_value_ascii := fun c _ => eq_refl;
  digit_value_nonneg := fragment_digit_nonneg;
  re_ci_eq_refl := fragment_ci_eq_refl
|}.

(** * Properties *)

(** ** Text *)

Section TextFacts.

Lemma startswith_spec (needle s : str) :
  startswith needle s = true <-> exists post, s = needle ++ post.
Proof.
  revert s. induction needle as [|a needle IH]; intros s; simpl.
  - split; [intros _; exists s; reflexivity | reflexivity].
  - destruct s as [|b s].
    + split; [discriminate | intros [post H]; discriminate].
    + rewrite andb_true_iff, N.eqb_eq, IH. split.
      * intros [-> [post ->]]. exists post. reflexivity.
      * intros [post H]. injection H as -> ->. eauto.
Qed.

Lemma str_in_spec (needle s : str) :
  str_in needle s = true <-> exists pre post, s = pre ++ needle ++ post.
Proof.
  induction s as [|c s IH]; simpl.
  - rewrite orb_false_r, startswith_spec. split.
    + intros [post H]. exists [], post. exact H.
    + intros [pre [post H]]. destruct pre as [|x pre]; [|discriminate].
      exists post. exact H.
  - rewrite orb_true_iff, startswith_spec, IH. split.
    + intros [[post H] | [pre [post H]]].
      * exists [], post. exact H.
      * exists (c :: pre), post. simpl. rewrite H. reflexivity.
    + intros [pre [post H]]. destruct pre as [|x pre].
      * left. exists post. exact H.
      * right. injection H as -> ->. eauto.
Qed.

End TextFacts.

(** ** Traces *)

Section TraceFacts.

Lemma attempts_app (a b : trace) : attempts (a ++ b) = (attempts a + attempts b)%nat.
Proof. unfold attempts. rewrite List.filter_app, length_app. reflexivity. Qed.

Lemma slept_app (a b : trace) : slept (a ++ b) = slept a + slept b.
Proof.
  induction a as [|e a IH]; simpl; [reflexivity|].
  destruct e; rewrite ?IH; lia.
Qed.

Lemma writes_app (a b : trace) : writes (a ++ b) = writes a ++ writes b.
Proof. unfold writes. apply flat_map_app. Qed.

Lemma range_length (n : Z) : length (range n) = Z.to_nat n.
Proof. unfold range. rewrite length_map, length_seq. reflexivity. Qed.

Lemma range_succ (n : Z) : 0 <= n -> range (n + 1) = range n ++ [n].
Proof.
  intros H. unfold range.
  replace (Z.to_nat (n + 1)) with (Z.to_nat n + 1)%nat by lia.
  rewrite seq_app, map_app. simpl. rewrite Z2Nat.id by lia. reflexivity.
Qed.

Lemma range_elem (n a : Z) : In a (range n) <-> 0 <= a < n.
Proof.
  unfold range. rewrite in_map_iff. split.
  - intros [k [<- Hk]]. apply in_seq in Hk. lia.
  - intros H. exists (Z.to_nat a). split; [lia|]. apply in_seq. lia.
Qed.

Lemma range_split (n a : Z) :
  0 <= a < n -> exists rest, range n = range a ++ a :: rest.
Proof.
  intros H. unfold range.
  replace (Z.to_nat n) with (Z.to_nat a + S (Z.to_nat (n - a - 1)))%nat by lia.
  rewrite seq_app, map_app. cbn [seq map Nat.add].
  rewrite Z2Nat.id by lia. eauto.
Qed.

End TraceFacts.

(** ** The retry loop of download_vn_stocks.py *)

Module StocksLoop.
Import download_vn_stocks.
Section Loop.
Context `{U : PyUnicode}.
Variables (symbol start_date end_date : str) (max_retries : Z)
          (world : item_world).

Local Abbreviation fetch_events := [EvGate; EvFetch symbol start_date end_date].
Local Abbreviation body := (loop_body symbol start_date end_date max_retries world).
Local Abbreviation loop := (for_attempts symbol start_date end_date max_retries world).

Lemma try_block_raises (w : attempt_world) (e : str) :
  attempt_raises w = Some e ->
  try_block symbol start_date end_date w = (inr e, fetch_events).
Proof.
  unfold attempt_raises, try_block.
  destruct (history w) as [e'|[df|]]; try discriminate.
  - intros [= ->]. reflexivity.
  - destruct (df_empty df); [discriminate|].
    destruct (to_parquet w); [discriminate|].
    intros [= ->]. reflexivity.
Qed.

Lemma try_block_no_rows (w : attempt_world) :
  no_rows w = true ->
  try_block symbol start_date end_date w
  = (inl (symbol, false, u "Không có dữ liệu", 0), fetch_events).
Proof.
  unfold no_rows, try_block.
  destruct (history w) as [e'|[df|]]; try discriminate; [|reflexivity].
  intros ->. reflexivity.
Qed.

Lemma wait_attempts (w : Z) : attempts (wait_with_countdown w symbol) = 0%nat.
Proof.
  unfold wait_with_countdown. destruct (w <=? 0); [reflexivity|].
  unfold attempts. induction (range w); simpl; auto.
Qed.

Lemma wait_writes (w : Z) : writes (wait_with_countdown w symbol) = [].
Proof.
  unfold wait_with_countdown. destruct (w <=? 0); [reflexivity|].
  induction (range w); simpl; auto.
Qed.

Lemma wait_slept (w : Z) : slept (wait_with_countdown w symbol) = Z.max 0 w.
Proof.
  unfold wait_with_countdown. destruct (Z.leb_spec w 0); [simpl; lia|].
  assert (forall l : list Z,
             slept (map (fun _ => EvSleep 1) l) = Z.of_nat (length l)) as E.
  { induction l as [|x l IH]; [reflexivity|].
    cbn [map slept fold_right length]. fold (slept (map (fun _ => EvSleep 1) l)).
    rewrite IH. lia. }
  rewrite E, range_length. lia.
Qed.

Lemma except_block_quiet (attempt : Z) (e : str) :
  attempts (snd (except_block symbol max_retries attempt e)) = 0%nat
  /\ writes (snd (except_block symbol max_retries attempt e)) = [].
Proof.
  unfold except_block.
  destruct (is_rate_limit e); [|split; reflexivity].
  destruct (extract_wait_time e); destruct (attempt <? max_retries - 1);
    simpl; rewrite ?attempts_app, ?writes_app, ?wait_attempts, ?wait_writes;
    split; reflexivity.
Qed.

Lemma except_block_symbol (attempt : Z) (e : str) (r : result) :
  fst (except_block symbol max_retries attempt e) = Return r ->
  res_symbol r = symbol /\ res_success r = false /\ res_row_count r = 0.
Proof.
  unfold except_block.
  destruct (is_rate_limit e).
  - destruct (extract_wait_time e); destruct (attempt <? max_retries - 1);
      simpl; try discriminate; intros [= <-]; auto.
  - simpl. intros [= <-]. auto.
Qed.

(** Every pass through the loop body makes exactly one fetch. *)
Lemma body_attempts (attempt : Z) : attempts (snd (body attempt)) = 1%nat.
Proof.
  unfold loop_body.
  destruct (try_block symbol start_date end_date (world attempt))
    as [[r|e] tr] eqn:E.
  - unfold try_block in E.
    destruct (history (world attempt)) as [e'|[df|]]; try discriminate;
      try (injection E as <- <-; reflexivity).
    destruct (df_empty df); [injection E as <- <-; reflexivity|].
    destruct (to_parquet (world attempt)); [|discriminate].
    injection E as <- <-. reflexivity.
  - destruct (except_block symbol max_retries attempt e) as [f tr'] eqn:E'.
    simpl. rewrite attempts_app.
    pose proof (except_block_quiet attempt e) as [Ha _].
    rewrite E' in Ha. simpl in Ha. rewrite Ha.
    unfold try_block in E.
    destruct (history (world attempt)) as [e'|[df|]]; try discriminate;
      try (injection E as <- <-; reflexivity).
    destruct (df_empty df); [discriminate|].
    destruct (to_parquet (world attempt)); [discriminate|].
    injection E as <- <-. reflexivity.
Qed.

(** The loop makes at most one fetch for each index it is given. *)
Lemma loop_attempts_le (todo : list Z) :
  (attempts (snd (loop todo)) <= length todo)%nat.
Proof.
  induction todo as [|a todo IH]; cbn [for_attempts length snd]; [unfold attempts; simpl; lia|].
  pose proof (body_attempts a) as Hb.
  destruct (body a) as [[r|] tr]; cbn [snd] in *.
  - lia.
  - destruct (loop todo) as [r' tr']. cbn [snd] in *.
  rewrite attempts_app. lia.
Qed.

(** While the passes say [Continue] the loop goes on. *)
Lemma loop_continue_prefix (l1 l2 : list Z) :
  (forall a, In a l1 -> fst (body a) = Continue) ->
  loop (l1 ++ l2)
  = (fst (loop l2), flat_map (fun a => snd (body a)) l1 ++ snd (loop l2)).
Proof.
  induction l1 as [|a l1 IH]; intros H.
  - simpl. destruct (loop l2); reflexivity.
  - pose proof (H a (or_introl eq_refl)) as Ha.
    cbn [app for_attempts flat_map].
    destruct (body a) as [[r|] tr]; cbn [fst snd] in *; [discriminate|].
    rewrite IH by (intros; apply H; right; assumption).
    cbn [fst snd]. rewrite <- app_assoc. reflexivity.
Qed.

(** A throttled attempt that is not the last one waits and retries. *)
Lemma body_throttled_retry (a : Z) :
  throttled (world a) -> a < max_retries - 1 ->
  exists wait_time,
    body a = (Continue,
              fetch_events ++ wait_with_countdown wait_time symbol ++ [EvStamp]).
Proof.
  intros [e [He Hr]] Ha. unfold loop_body.
  rewrite (try_block_raises _ _ He). unfold except_block. rewrite Hr.
  apply Z.ltb_lt in Ha.
  destruct (extract_wait_time e) as [n|]; rewrite Ha; eauto.
Qed.

(** A throttled last attempt ends the loop with a failure. *)
Lemma body_throttled_last (a : Z) :
  throttled (world a) -> max_retries - 1 <= a ->
  exists msg, body a = (Return (symbol, false, msg, 0), fetch_events).
Proof.
  intros [e [He Hr]] Ha. unfold loop_body.
  rewrite (try_block_raises _ _ He). unfold except_block. rewrite Hr.
  apply Z.ltb_ge in Ha.
  destruct (extract_wait_time e) as [n|]; rewrite Ha; eauto.
Qed.

Lemma attempts_flat_map (l : list Z) :
  attempts (flat_map (fun a => snd (body a)) l) = length l.
Proof.
  induction l as [|a l IH]; [reflexivity|].
  cbn [flat_map length]. rewrite attempts_app, body_attempts, IH. reflexivity.
Qed.

(** When every attempt is throttled the loop uses all its attempts and
    fails. *)
Lemma loop_all_throttled :
  0 <= max_retries ->
  (forall a, 0 <= a < max_retries -> throttled (world a)) ->
  attempts (snd (loop (range max_retries))) = Z.to_nat max_retries
  /\ res_success (fst (loop (range max_retries))) = false.
Proof.
  intros Hm Hall.
  destruct (Z.eq_dec max_retries 0) as [->|Hne]; [split; reflexivity|].
  assert (range max_retries = range (max_retries - 1) ++ [max_retries - 1])
    as -> by (rewrite <- range_succ by lia; f_equal; lia).
  rewrite loop_continue_prefix.
  - destruct (body_throttled_last (max_retries - 1)) as [msg Hlast];
      [apply Hall; lia | lia |].
    cbn [for_attempts fst snd]. rewrite Hlast. cbn [fst snd].
    rewrite attempts_app, attempts_flat_map, range_length.
    split; [|reflexivity]. unfold attempts. simpl. lia.
  - intros a Ha. apply range_elem in Ha.
    destruct (body_throttled_retry a) as [wt ->]; [apply Hall; lia | lia |].
    reflexivity.
Qed.

(** A pass that says [Continue] has written nothing. *)
Lemma body_continue_writes (a : Z) :
  fst (body a) = Continue -> writes (snd (body a)) = [].
Proof.
  unfold loop_body.
  destruct (try_block symbol start_date end_date (world a))
    as [[r|e] tr] eqn:E; [discriminate|].
  pose proof (except_block_quiet a e) as [_ Hw].
  destruct (except_block symbol max_retries a e) as [f tr'].
  cbn [fst snd] in *. intros _. rewrite writes_app, Hw, app_nil_r.
  unfold try_block in E.
  destruct (history (world a)) as [e'|[df|]]; try discriminate;
    try (injection E as <- <-; reflexivity).
  destruct (df_empty df); [discriminate|].
  destruct (to_parquet (world a)); [discriminate|].
  injection E as <- <-. reflexivity.
Qed.

Lemma writes_flat_map (l : list Z) :
  (forall a, In a l -> fst (body a) = Continue) ->
  writes (flat_map (fun a => snd (body a)) l) = [].
Proof.
  induction l as [|a l IH]; intros H; [reflexivity|].
  cbn [flat_map]. rewrite writes_app, body_continue_writes, IH; auto.
  - intros b Hb. apply H. right. exact Hb.
  - apply H. left. reflexivity.
Qed.

(** An error that is not throttling ends the loop in that pass. *)
Lemma body_other_failure (a : Z) (e : str) :
  attempt_raises (world a) = Some e -> is_rate_limit e = false ->
  body a = (Return (symbol, false, truncated e, 0), fetch_events).
Proof.
  intros He Hr. unfold loop_body. rewrite (try_block_raises _ _ He).
  unfold except_block. rewrite Hr. unfold truncated. rewrite Z.gtb_ltb.
  reflexivity.
Qed.

(** So does a fetch without rows. *)
Lemma body_no_rows (a : Z) :
  no_rows (world a) = true ->
  body a = (Return (symbol, false, u "Không có dữ liệu", 0), fetch_events).
Proof.
  intros H. unfold loop_body. rewrite (try_block_no_rows _ H). reflexivity.
Qed.

(** The run up to a pass [a] that returns, after throttled passes. *)
Lemma loop_returns_at (a : Z) (r : result) (tr : trace) :
  0 <= a < max_retries ->
  (forall b, 0 <= b < a -> throttled (world b)) ->
  body a = (Return r, tr) ->
  fst (loop (range max_retries)) = r
  /\ snd (loop (range max_retries))
     = flat_map (fun b => snd (body b)) (range a) ++ tr
  /\ attempts (snd (loop (range max_retries))) = (Z.to_nat a + 1)%nat
  /\ writes (snd (loop (range max_retries))) = writes tr.
Proof.
  intros Ha Hthr Hbody.
  destruct (range_split max_retries a Ha) as [rest ->].
  assert (forall b, In b (range a) -> fst (body b) = Continue) as Hc.
  { intros b Hb. apply range_elem in Hb.
    destruct (body_throttled_retry b) as [wt ->];
      [apply Hthr; lia | lia | reflexivity]. }
  rewrite loop_continue_prefix by exact Hc.
  cbn [for_attempts fst snd]. rewrite Hbody. cbn [fst snd].
  repeat split.
  - rewrite attempts_app, attempts_flat_map, range_length.
    pose proof (body_attempts a) as H1. rewrite Hbody in H1.
    cbn [snd] in H1. rewrite H1. reflexivity.
  - rewrite writes_app, writes_flat_map by exact Hc. reflexivity.
Qed.

(** A pass that returns has written the output file exactly when it
    reports success, and reports on its own symbol. *)
Lemma body_return (a : Z) (r : result) (tr : trace) :
  body a = (Return r, tr) ->
  res_symbol r = symbol
  /\ writes tr = if res_success r then [output_file symbol] else [].
Proof.
  unfold loop_body.
  destruct (try_block symbol start_date end_date (world a))
    as [[r0|e] tr0] eqn:E.
  - intros [= <- <-]. unfold try_block in E.
    destruct (history (world a)) as [e'|[df|]]; try discriminate;
      try (injection E as <- <-; split; reflexivity).
    destruct (df_empty df); [injection E as <- <-; split; reflexivity|].
    destruct (to_parquet (world a)); [|discriminate].
    injection E as <- <-. split; reflexivity.
  - pose proof (except_block_quiet a e) as [_ Hw].
    pose proof (except_block_symbol a e) as Hs.
    destruct (except_block symbol max_retries a e) as [f tr'].
    cbn [fst snd] in *. intros [= -> <-].
    destruct (Hs r eq_refl) as [H1 [H2 _]]. rewrite H1, H2.
    split; [reflexivity|]. rewrite writes_app, Hw, app_nil_r.
    unfold try_block in E.
    destruct (history (world a)) as [e'|[df|]]; try discriminate;
      try (injection E as <- <-; reflexivity).
    destruct (df_empty df); [discriminate|].
    destruct (to_parquet (world a)); [discriminate|].
    injection E as <- <-. reflexivity.
Qed.

Lemma loop_result (todo : list Z) :
  res_symbol (fst (loop todo)) = symbol
  /\ writes (snd (loop todo))
     = if res_success (fst (loop todo)) then [output_file symbol] else [].
Proof.
  induction todo as [|a todo IH]; [split; reflexivity|].
  cbn [for_attempts].
  destruct (body a) as [[r|] tr] eqn:E.
  - cbn [fst snd]. apply (body_return a r tr E).
  - destruct (loop todo) as [r' tr']. cbn [fst snd] in *.
    destruct IH as [H1 H2]. split; [exact H1|].
    rewrite writes_app, H2.
    pose proof (body_continue_writes a) as Hc. rewrite E in Hc.
    cbn [fst snd] in Hc. rewrite (Hc eq_refl). reflexivity.
Qed.

End Loop.
End StocksLoop.

(** ** download_vn30.py repeats the loop for the symbol VN30 *)

Section Vn30.
Context `{U : PyUnicode}.

Lemma vn30_is_rate_limit (e : str) :
  download_vn30.is_rate_limit e = download_vn_stocks.is_rate_limit e.
Proof. reflexivity. Qed.

Lemma vn30_extract_wait_time (e : str) :
  download_vn30.extract_wait_time e = download_vn_stocks.extract_wait_time e.
Proof. reflexivity. Qed.

Lemma vn30_except_block (max_retries attempt : Z) (e : str) :
  download_vn30.except_block max_retries attempt e
  = download_vn_stocks.except_block download_vn30.symbol max_retries attempt e.
Proof. reflexivity. Qed.

Lemma vn30_loop_body (start_date end_date : str) (max_retries : Z)
      (world : item_world) (attempt : Z) :
  download_vn30.loop_body start_date end_date max_retries world attempt
  = download_vn_stocks.loop_body download_vn30.symbol start_date end_date
                                 max_retries world attempt.
Proof. reflexivity. Qed.

Lemma vn30_for_attempts (start_date end_date : str) (max_retries : Z)
      (world : item_world) (todo : list Z) :
  download_vn30.for_attempts start_date end_date max_retries world todo
  = download_vn_stocks.for_attempts download_vn30.symbol start_date end_date
                                    max_retries world todo.
Proof.
  induction todo as [|a todo IH]; [reflexivity|].
  cbn [download_vn30.for_attempts download_vn_stocks.for_attempts].
  rewrite vn30_loop_body, IH. reflexivity.
Qed.

Lemma vn30_data (start_date end_date : str) (max_retries : Z)
      (world : item_world) :
  download_vn30.download_vn30_data start_date end_date max_retries world
  = download_vn_stocks.download_symbol_data download_vn30.symbol start_date
                                            end_date max_retries world.
Proof. apply vn30_for_attempts. Qed.

End Vn30.

(** ** The matcher *)

Section ReFacts.
Context `{U : PyUnicode}.

(** Completeness of the greedy repetition: if the rest of the pattern
    accepts after some run of characters of the class, the repetition
    finds a match (possibly a longer one). *)
Lemma greedy_complete (t : N -> bool) (k : str -> str -> option str)
      (xs rest taken : str) :
  Forall (fun c => t c = true) xs ->
  k (taken ++ xs) rest <> None ->
  greedy t k taken (xs ++ rest) <> None.
Proof.
  revert taken. induction xs as [|x xs IH]; intros taken Hxs Hk.
  - rewrite app_nil_r in Hk. simpl.
    destruct rest as [|c rest']; simpl; [exact Hk|].
    destruct (t c); [|exact Hk].
    destruct (greedy t k (taken ++ [c]) rest'); [discriminate | exact Hk].
  - inversion Hxs as [|? ? Hx Hxs']; subst. simpl. rewrite Hx.
    specialize (IH (taken ++ [x]) Hxs').
    rewrite <- app_assoc in IH. specialize (IH Hk).
    destruct (greedy t k (taken ++ [x]) (xs ++ rest)); [discriminate|].
    contradiction.
Qed.

Lemma plus_complete (t : N -> bool) (k : str -> str -> option str)
      (xs rest : str) :
  xs <> [] ->
  Forall (fun c => t c = true) xs ->
  k xs rest <> None ->
  plus t k (xs ++ rest) <> None.
Proof.
  intros Hne Hxs Hk. destruct xs as [|x xs]; [contradiction|].
  inversion Hxs as [|? ? Hx Hxs']; subst. simpl. rewrite Hx.
  apply (greedy_complete t k xs rest [x] Hxs' Hk).
Qed.

(** Soundness: what the repetition hands to the rest of the pattern is a
    run of characters of the class. *)
Lemma greedy_sound (t : N -> bool) (k : str -> str -> option str)
      (s taken r : str) :
  Forall (fun c => t c = true) taken ->
  greedy t k taken s = Some r ->
  exists taken' rest,
    Forall (fun c => t c = true) taken' /\ k taken' rest = Some r.
Proof.
  revert taken. induction s as [|c s IH]; intros taken Ht; simpl.
  - eauto.
  - destruct (t c) eqn:Hc; [|eauto].
    destruct (greedy t k (taken ++ [c]) s) eqn:G.
    + intros [= <-]. apply (IH (taken ++ [c])); [|exact G].
      apply Forall_app. split; [exact Ht | constructor; auto].
    + eauto.
Qed.

Lemma plus_sound (t : N -> bool) (k : str -> str -> option str) (s r : str) :
  plus t k s = Some r ->
  exists taken rest,
    Forall (fun c => t c = true) taken /\ k taken rest = Some r.
Proof.
  destruct s as [|c s]; simpl; [discriminate|].
  destruct (t c) eqn:Hc; [|discriminate].
  apply greedy_sound. constructor; auto.
Qed.

Lemma match_here_digits (p : pattern) (g s r : str) :
  groups_are_digits p = true ->
  Forall (fun c => re_isdigit c = true) g ->
  match_here p g s = Some r ->
  Forall (fun c => re_isdigit c = true) r.
Proof.
  revert g s. induction p as [|it p IH]; intros g s Hp Hg; simpl.
  - intros [= <-]. exact Hg.
  - simpl in Hp. apply andb_true_iff in Hp as [Hit Hp].
    destruct it as [c|cl grp].
    + destruct s as [|x s]; [discriminate|].
      destruct (re_ci_eq c x); [|discriminate]. apply IH; assumption.
    + intros H. apply plus_sound in H as [taken [rest [Ht H]]].
      apply IH in H; [exact H | exact Hp |].
      destruct grp; [|exact Hg].
      destruct cl; [discriminate | exact Ht].
Qed.

Lemma search_sound (p : pattern) (s r : str) :
  search p s = Some r -> exists s', match_here p [] s' = Some r.
Proof.
  induction s as [|c s IH]; simpl.
  - destruct (match_here p [] []) eqn:E; [|discriminate].
    intros [= <-]. eauto.
  - destruct (match_here p [] (c :: s)) eqn:E; [intros [= <-]; eauto|].
    exact IH.
Qed.

Lemma search_complete (p : pattern) (pre s : str) :
  match_here p [] s <> None -> search p (pre ++ s) <> None.
Proof.
  intros H. induction pre as [|c pre IH]; simpl.
  - destruct s as [|x s]; simpl; destruct (match_here p [] _); congruence.
  - destruct (match_here p [] (c :: pre ++ s)); [discriminate | exact IH].
Qed.

(** [re.search] returns the leftmost match. *)
Lemma search_skip (p : pattern) (pre s : str) :
  no_match_before p (length pre) (pre ++ s) ->
  search p (pre ++ s) = search p s.
Proof.
  induction pre as [|c pre IH]; intros H; [reflexivity|].
  cbn [app search].
  rewrite (H 0%nat ltac:(simpl; lia) : match_here p [] (c :: pre ++ s) = None).
  apply IH. intros i Hi. apply (H (S i)). simpl. lia.
Qed.

Lemma match_lit (w word : str) (p : pattern) (g post : str) :
  ci_word w word ->
  match_here (lit w ++ p) g (word ++ post) = match_here p g post.
Proof.
  intros H. induction H as [|c x w word Hc _ IH]; [reflexivity|].
  simpl. rewrite Hc. exact IH.
Qed.

Lemma py_int_nonneg (g : str) :
  Forall (fun c => re_isdigit c = true) g -> 0 <= py_int g.
Proof.
  unfold py_int.
  assert (forall acc, 0 <= acc ->
            Forall (fun c => re_isdigit c = true) g ->
            0 <= fold_left (fun a c => a * 10 + digit_value c) g acc) as H.
  { induction g as [|c g IH]; intros acc Ha Hg; simpl; [exact Ha|].
    inversion Hg as [|? ? Hc Hg']; subst. apply IH; [|exact Hg'].
    pose proof (digit_value_nonneg c Hc). lia. }
  apply H. lia.
Qed.

(** The loop over the patterns returns the match of the first pattern
    that has one. *)
Lemma first_match_some (ps : list pattern) (error_msg : str) (n : Z) :
  download_vn_stocks.first_match ps error_msg = Some n <->
  exists i p g,
    nth_error ps i = Some p /\ search p error_msg = Some g /\ n = py_int g
    /\ forall j q, (j < i)%nat -> nth_error ps j = Some q ->
                   search q error_msg = None.
Proof.
  revert n. induction ps as [|p ps IH]; intros n; simpl.
  - split; [discriminate|]. intros [i [p [g [H _]]]].
    destruct i; discriminate.
  - destruct (search p error_msg) as [g|] eqn:E.
    + split.
      * intros [= <-]. exists 0%nat, p, g. repeat split; auto.
        intros j q Hj. lia.
      * intros [i [p' [g' [Hi [Hs [-> Hbefore]]]]]].
        destruct i as [|i].
        -- simpl in Hi. injection Hi as <-. congruence.
        -- specialize (Hbefore 0%nat p ltac:(lia) eq_refl). congruence.
    + rewrite IH. split.
      * intros [i [p' [g' [Hi [Hs [-> Hbefore]]]]]].
        exists (S i), p', g'. repeat split; auto.
        intros [|j] q Hj Hq; simpl in Hq.
        -- injection Hq as <-. exact E.
        -- apply (Hbefore j q); [lia | exact Hq].
      * intros [i [p' [g' [Hi [Hs [-> Hbefore]]]]]].
        destruct i as [|i].
        -- simpl in Hi. injection Hi as <-. congruence.
        -- exists i, p', g'. repeat split; auto.
           intros j q Hj Hq. apply (Hbefore (S j) q); [lia | exact Hq].
Qed.

Lemma first_match_none (ps : list pattern) (error_msg : str) :
  download_vn_stocks.first_match ps error_msg = None <->
  forall p, In p ps -> search p error_msg = None.
Proof.
  induction ps as [|p ps IH]; simpl.
  - split; [intros _ p [] | reflexivity].
  - destruct (search p error_msg) as [g|] eqn:E.
    + split; [discriminate|]. intros H.
      specialize (H p (or_introl eq_refl)). congruence.
    + rewrite IH. split.
      * intros H q [<-|Hq]; auto.
      * intros H q Hq. apply H. right. exact Hq.
Qed.

Lemma stocks_patterns :
  download_vn_stocks.patterns
  = [pattern_sau; pattern_after; pattern_giay; pattern_seconds].
Proof. reflexivity. Qed.

(** A hint found by [extract_wait_time] is not negative. *)
Lemma extract_wait_time_nonneg (error_msg : str) (n : Z) :
  download_vn_stocks.extract_wait_time error_msg = Some n -> 0 <= n.
Proof.
  unfold download_vn_stocks.extract_wait_time. rewrite first_match_some.
  intros [i [p [g [Hi [Hs [-> _]]]]]].
  apply search_sound in Hs as [s' Hs].
  apply py_int_nonneg.
  apply (match_here_digits p [] s' g); [|constructor | exact Hs].
  rewrite stocks_patterns in Hi.
  do 4 (destruct i as [|i]; [injection Hi as <-; reflexivity|]).
  destruct i; discriminate.
Qed.

(** A run of digits, whitespace and the word is a match of the bare
    pattern for that word. *)
Lemma bare_hint_matches (w digits spaces word post : str) :
  digits <> [] -> Forall (fun c => re_isdigit c = true) digits ->
  spaces <> [] -> Forall (fun c => re_isspace c = true) spaces ->
  ci_word w word ->
  match_here ([Plus ClsDigit true; Plus ClsSpace false] ++ lit w) []
             (digits ++ spaces ++ word ++ post) <> None.
Proof.
  intros Hd Hds Hs Hss Hw. cbn [app match_here].
  apply plus_complete; [exact Hd | exact Hds |].
  cbn [match_here].
  apply plus_complete; [exact Hs | exact Hss |].
  rewrite <- (app_nil_r (lit w)), match_lit by exact Hw.
  discriminate.
Qed.

(** When the run of the class ends where [xs] ends and the rest of the
    pattern accepts there, that is the match the repetition returns. *)
Lemma greedy_exact (t : N -> bool) (k : str -> str -> option str)
      (xs rest taken r : str) :
  Forall (fun c => t c = true) xs -> stops t rest ->
  k (taken ++ xs) rest = Some r ->
  greedy t k taken (xs ++ rest) = Some r.
Proof.
  revert taken. induction xs as [|x xs IH]; intros taken Hxs Hstop Hk.
  - rewrite app_nil_r in Hk. cbn [app].
    destruct rest as [|c rest']; cbn [greedy]; [exact Hk|].
    simpl in Hstop. rewrite Hstop. exact Hk.
  - inversion Hxs as [|? ? Hx Hxs']; subst. cbn [app greedy]. rewrite Hx.
    rewrite (IH (taken ++ [x]) Hxs' Hstop); [reflexivity|].
    rewrite <- app_assoc. exact Hk.
Qed.

Lemma plus_exact (t : N -> bool) (k : str -> str -> option str)
      (xs rest r : str) :
  xs <> [] -> Forall (fun c => t c = true) xs -> stops t rest ->
  k xs rest = Some r ->
  plus t k (xs ++ rest) = Some r.
Proof.
  intros Hne Hxs Hstop Hk. destruct xs as [|x xs]; [contradiction|].
  inversion Hxs as [|? ? Hx Hxs']; subst. cbn [app plus]. rewrite Hx.
  apply (greedy_exact t k xs rest [x] r Hxs' Hstop Hk).
Qed.

Lemma ci_word_refl (w : str) : ci_word w w.
Proof. induction w; constructor; auto using re_ci_eq_refl. Qed.

(** The shape "word, blanks, digits, blanks, word" is matched by the
    pattern of that shape, and group 1 is the digits. *)
Lemma hint_matches (w1 w2 sp1 digits sp2 post : str) :
  sp1 <> [] -> Forall (fun c => re_isspace c = true) sp1 ->
  digits <> [] -> Forall (fun c => re_isdigit c = true) digits ->
  sp2 <> [] -> Forall (fun c => re_isspace c = true) sp2 ->
  stops re_isspace (digits ++ sp2 ++ w2 ++ post) ->
  stops re_isdigit (sp2 ++ w2 ++ post) ->
  stops re_isspace (w2 ++ post) ->
  match_here
    (lit w1 ++ [Plus ClsSpace false; Plus ClsDigit true; Plus ClsSpace false]
       ++ lit w2) []
    (w1 ++ sp1 ++ digits ++ sp2 ++ w2 ++ post)
  = Some digits.
Proof.
  intros Hn1 Hs1 Hnd Hd Hn2 Hs2 St1 St2 St3.
  rewrite match_lit by apply ci_word_refl.
  cbn [app match_here].
  apply plus_exact; [exact Hn1 | exact Hs1 | exact St1 |].
  cbn [match_here].
  apply plus_exact; [exact Hnd | exact Hd | exact St2 |].
  cbn [match_here].
  apply plus_exact; [exact Hn2 | exact Hs2 | exact St3 |].
  rewrite <- (app_nil_r (lit w2)), match_lit by apply ci_word_refl.
  reflexivity.
Qed.

Lemma space_is_space : Forall (fun c => re_isspace c = true) [32%N].
Proof. repeat constructor. rewrite isspace_ascii by reflexivity. reflexivity. Qed.

Lemma ten_is_digits : Forall (fun c => re_isdigit c = true) [49%N; 48%N].
Proof.
  repeat constructor; rewrite isdigit_ascii by reflexivity; reflexivity.
Qed.

Lemma sau_10_giay_matches (post : str) :
  match_here pattern_sau [] (u "sau 10 giây" ++ post) = Some (u "10").
Proof.
  change (u "10") with [49%N; 48%N].
  change (u "sau 10 giây" ++ post)
    with (u "sau" ++ [32%N] ++ [49%N; 48%N] ++ [32%N] ++ u "giây" ++ post).
  apply hint_matches;
    try discriminate; try apply space_is_space; try apply ten_is_digits.
  - cbn [app stops]. rewrite isspace_ascii by reflexivity. reflexivity.
  - cbn [app stops]. rewrite isdigit_ascii by reflexivity. reflexivity.
  - change (u "giây" ++ post) with (103%N :: (u "iây" ++ post)).
    cbn [stops]. rewrite isspace_ascii by reflexivity. reflexivity.
Qed.

Lemma after_10_seconds_matches (post : str) :
  match_here pattern_after [] (u "after 10 seconds" ++ post) = Some (u "10").
Proof.
  change (u "10") with [49%N; 48%N].
  change (u "after 10 seconds" ++ post)
    with (u "after" ++ [32%N] ++ [49%N; 48%N] ++ [32%N] ++ u "seconds" ++ post).
  apply hint_matches;
    try discriminate; try apply space_is_space; try apply ten_is_digits.
  - cbn [app stops]. rewrite isspace_ascii by reflexivity. reflexivity.
  - cbn [app stops]. rewrite isdigit_ascii by reflexivity. reflexivity.
  - change (u "seconds" ++ post) with (115%N :: (u "econds" ++ post)).
    cbn [stops]. rewrite isspace_ascii by reflexivity. reflexivity.
Qed.

Lemma py_int_10 : py_int (u "10") = 10.
Proof.
  change (u "10") with [49; 48]%N. unfold py_int. cbn [fold_left].
  rewrite !digit_value_ascii by reflexivity. reflexivity.
Qed.

End ReFacts.

(** ** C1: the attempt bound *)

Section AttemptBound.
Context `{U : PyUnicode}.

Lemma stocks_retry_bound (symbol start_date end_date : str)
      (max_retries : Z) (world : item_world) :
  0 <= max_retries ->
  let run := download_vn_stocks.download_symbol_data
               symbol start_date end_date max_retries world in
  Z.of_nat (attempts (snd run)) <= max_retries
  /\ ((forall a, 0 <= a < max_retries -> throttled (world a)) ->
      Z.of_nat (attempts (snd run)) = max_retries
      /\ res_success (fst run) = false).
Proof.
  intros Hm run. subst run. unfold download_vn_stocks.download_symbol_data.
  split.
  - pose proof (StocksLoop.loop_attempts_le symbol start_date end_date
                  max_retries world (range max_retries)) as H.
    rewrite range_length in H. lia.
  - intros Hall.
    destruct (StocksLoop.loop_all_throttled symbol start_date end_date
                max_retries world Hm Hall) as [Ha Hs].
    rewrite Ha, Hs. split; [lia | reflexivity].
Qed.

End AttemptBound.


Lemma always_throttled_sample :
  forall a : Z, throttled (U := fragment) (always (raising (u "Rate limit exceeded")) a).
Proof.
  intros a. exists (u "Rate limit exceeded"). split; reflexivity.
Defined.


(** ** C4: which texts are throttling *)

(** C4.  An error text is classified as throttling exactly when its
    lower-cased form contains one of the phrases "rate limit",
    "too many request", "process terminated", "quá nhiều request"; any
    other text takes the branch that is not retried: the handler returns a
    FAILED result at once, without a wait.  Both scripts classify alike. *)
Theorem throttling_classification `{U : PyUnicode} (error_msg : str) :
  (download_vn_stocks.is_rate_limit error_msg = true <->
   exists phrase pre post,
     In phrase throttle_phrases
     /\ str_lower error_msg = pre ++ phrase ++ post)
  /\ download_vn30.is_rate_limit error_msg
     = download_vn_stocks.is_rate_limit error_msg
  /\ (download_vn_stocks.is_rate_limit error_msg = false ->
      forall symbol max_retries attempt,
        download_vn_stocks.except_block symbol max_retries attempt error_msg
        = (Return (symbol, false, truncated error_msg, 0), [])
        /\ download_vn30.except_block max_retries attempt error_msg
           = (Return (download_vn30.symbol, false, truncated error_msg, 0), [])).
Proof.
  split; [|split; [reflexivity|]].
  - unfold download_vn_stocks.is_rate_limit, throttle_phrases.
    rewrite !orb_true_iff, !str_in_spec. split.
    + intros [[[H|H]|H]|H]; destruct H as [pre [post H]].
      * exists (u "rate limit"), pre, post.
        split; [left; reflexivity | exact H].
      * exists (u "quá nhiều request"), pre, post.
        split; [do 3 right; left; reflexivity | exact H].
      * exists (u "too many request"), pre, post.
        split; [right; left; reflexivity | exact H].
      * exists (u "process terminated"), pre, post.
        split; [do 2 right; left; reflexivity | exact H].
    + intros [phrase [pre [post [Hin H]]]]. cbn [In] in Hin.
      destruct Hin as [E|[E|[E|[E|[]]]]]; rewrite <- E in H; clear E.
      * left. left. left. exists pre, post. exact H.
      * left. right. exists pre, post. exact H.
      * right. exists pre, post. exact H.
      * left. left. right. exists pre, post. exact H.
  - intros Hf symbol max_retries attempt.
    rewrite vn30_except_block. unfold download_vn_stocks.except_block.
    rewrite Hf. unfold truncated. rewrite Z.gtb_ltb. split; reflexivity.
Qed.

Example throttling_samples :
  download_vn_stocks.is_rate_limit (U := fragment) (u "Rate Limit exceeded") = true
  /\ download_vn_stocks.is_rate_limit (U := fragment) (u "429 Too Many Requests") = true
  /\ download_vn_stocks.is_rate_limit (U := fragment) (u "Process terminated by server") = true
  /\ download_vn_stocks.is_rate_limit (U := fragment) (u "Quá nhiều request, vui lòng thử lại") = true
  /\ download_vn_stocks.is_rate_limit (U := fragment) (u "invalid symbol") = false.
Proof. repeat split; vm_compute; reflexivity. Qed.

(** ** C3: exponential backoff *)

(** C3.  For an error text classified as throttling in which
    [extract_wait_time] finds no hint, the wait before the retry at attempt
    index [attempt] is [15 * 2 ^ attempt] seconds: 15, 30, 60, 120 for the
    indices 0, 1, 2, 3. *)
Theorem exponential_backoff `{U : PyUnicode} (symbol error_msg : str)
        (max_retries attempt : Z) :
  download_vn_stocks.is_rate_limit error_msg = true ->
  download_vn_stocks.extract_wait_time error_msg = None ->
  0 <= attempt < max_retries - 1 ->
  (download_vn_stocks.except_block symbol max_retries attempt error_msg
   = (Continue,
      download_vn_stocks.wait_with_countdown (15 * 2 ^ attempt) symbol ++ [EvStamp])
   /\ slept (snd (download_vn_stocks.except_block symbol max_retries attempt
                                                   error_msg))
      = 15 * 2 ^ attempt)
  /\ (download_vn30.except_block max_retries attempt error_msg
      = (Continue,
         download_vn30.wait_with_countdown (15 * 2 ^ attempt) download_vn30.symbol
           ++ [EvStamp])
      /\ slept (snd (download_vn30.except_block max_retries attempt error_msg))
         = 15 * 2 ^ attempt)
  /\ map (fun i => 15 * 2 ^ i) [0; 1; 2; 3] = [15; 30; 60; 120].
Proof.
  intros Hr Hn Ha.
  assert (forall s, download_vn_stocks.except_block s max_retries attempt error_msg
                    = (Continue,
                       download_vn_stocks.wait_with_countdown (15 * 2 ^ attempt) s
                         ++ [EvStamp])) as E.
  { intros s. unfold download_vn_stocks.except_block. rewrite Hr, Hn.
    destruct (Z.ltb_spec attempt (max_retries - 1)); [|lia].
    rewrite (Z.mul_comm (2 ^ attempt) 15). reflexivity. }
  assert (forall s, slept (download_vn_stocks.wait_with_countdown
                             (15 * 2 ^ attempt) s ++ [EvStamp])
                    = 15 * 2 ^ attempt) as S.
  { intros s. rewrite slept_app, StocksLoop.wait_slept. simpl.
    pose proof (Z.pow_pos_nonneg 2 attempt). lia. }
  split; [|split; [|reflexivity]].
  - rewrite E. split; [reflexivity | apply S].
  - rewrite vn30_except_block, E. split; [reflexivity | apply S].
Qed.

Lemma exponential_backoff_witness :
  download_vn_stocks.is_rate_limit (U := fragment) (u "Rate limit exceeded") = true
  /\ download_vn_stocks.extract_wait_time (U := fragment) (u "Rate limit exceeded") = None
  /\ 0 <= 2 < 5 - 1
  /\ slept (snd (download_vn_stocks.except_block (U := fragment)
                   (u "ABC") 5 2 (u "Rate limit exceeded"))) = 15 * 2 ^ 2.
Proof.
  split; [reflexivity|]. split; [reflexivity|]. split; [lia|].
  exact (proj2 (proj1 (exponential_backoff (U := fragment) (u "ABC")
                         (u "Rate limit exceeded") 5 2
                         eq_refl eq_refl ltac:(lia)))).
Defined.

(** With the default bound and a provider that throttles without a hint,
    the waits are 15, 30, 60 and 120 seconds: 225 in all. *)
Example exponential_backoff_run :
  slept (snd (download_vn_stocks.download_symbol_data (U := fragment)
                (u "ABC") (u "2024-01-01") (u "2024-06-01") 5
                (always (raising (u "Rate limit exceeded"))))) = 225.
Proof. vm_compute. reflexivity. Qed.

(** ** C5: other failures are not retried *)

Section OtherFailure.
Context `{U : PyUnicode}.

Lemma range_head (n : Z) : 0 < n -> exists rest, range n = 0 :: rest.
Proof.
  intros H. destruct (range_split n 0 ltac:(lia)) as [rest E].
  exists rest. exact E.
Qed.

Lemma invalid_symbol_not_throttling :
  download_vn_stocks.is_rate_limit (u "invalid symbol") = false.
Proof.
  unfold download_vn_stocks.is_rate_limit.
  rewrite lower_ascii by reflexivity. reflexivity.
Qed.

Lemma stocks_other_failure (symbol start_date end_date : str)
      (max_retries : Z) (world : item_world) (e : str) :
  0 < max_retries ->
  attempt_raises (world 0) = Some e ->
  download_vn_stocks.is_rate_limit e = false ->
  download_vn_stocks.download_symbol_data symbol start_date end_date
                                          max_retries world
  = ((symbol, false, truncated e, 0),
     [EvGate; EvFetch symbol start_date end_date]).
Proof.
  intros Hm He Hr. unfold download_vn_stocks.download_symbol_data.
  destruct (range_head max_retries Hm) as [rest ->].
  cbn [download_vn_stocks.for_attempts].
  rewrite (StocksLoop.body_other_failure _ _ _ _ _ _ _ He Hr). reflexivity.
Qed.

End OtherFailure.

(** C5.  When the fetch of a Work Item raises an error that matches no
    throttling phrase, the loop makes exactly one attempt, waits zero
    seconds and returns FAILED with the error text as message, cut to 100
    characters followed by "..." when it is longer; a fetch raising
    "invalid symbol" gives FAILED after one attempt, with that message and
    without a wait. *)
Theorem other_failure_is_terminal `{U : PyUnicode}
        (symbol start_date end_date : str) (max_retries : Z)
        (world : item_world) (e : str) :
  0 < max_retries ->
  attempt_raises (world 0) = Some e ->
  let run := download_vn_stocks.download_symbol_data
               symbol start_date end_date max_retries world in
  let run30 := download_vn30.download_vn30_data
                 start_date end_date max_retries world in
  (download_vn_stocks.is_rate_limit e = false ->
   (fst run = (symbol, false, truncated e, 0)
    /\ attempts (snd run) = 1%nat /\ slept (snd run) = 0)
   /\ (fst run30 = (download_vn30.symbol, false, truncated e, 0)
       /\ attempts (snd run30) = 1%nat /\ slept (snd run30) = 0))
  /\ (e = u "invalid symbol" ->
      (fst run = (symbol, false, u "invalid symbol", 0)
       /\ attempts (snd run) = 1%nat /\ slept (snd run) = 0)
      /\ (fst run30 = (download_vn30.symbol, false, u "invalid symbol", 0)
          /\ attempts (snd run30) = 1%nat /\ slept (snd run30) = 0)).
Proof.
  intros Hm He run run30. subst run run30. rewrite vn30_data.
  assert (download_vn_stocks.is_rate_limit e = false ->
          forall s,
            download_vn_stocks.download_symbol_data s start_date end_date
                                                    max_retries world
            = ((s, false, truncated e, 0), [EvGate; EvFetch s start_date end_date]))
    as H.
  { intros Hr s. apply stocks_other_failure; assumption. }
  split.
  - intros Hr. rewrite !(H Hr). repeat split.
  - intros ->. rewrite !(H invalid_symbol_not_throttling). repeat split.
Qed.

Lemma other_failure_is_terminal_witness :
  0 < 5
  /\ attempt_raises (always (raising (u "invalid symbol")) 0)
     = Some (u "invalid symbol")
  /\ fst (download_vn_stocks.download_symbol_data (U := fragment)
            (u "ABC") (u "2024-01-01") (u "2024-06-01") 5
            (always (raising (u "invalid symbol"))))
     = (u "ABC", false, u "invalid symbol", 0)
  /\ attempts (snd (download_vn_stocks.download_symbol_data (U := fragment)
                      (u "ABC") (u "2024-01-01") (u "2024-06-01") 5
                      (always (raising (u "invalid symbol"))))) = 1%nat
  /\ slept (snd (download_vn_stocks.download_symbol_data (U := fragment)
                   (u "ABC") (u "2024-01-01") (u "2024-06-01") 5
                   (always (raising (u "invalid symbol"))))) = 0.
Proof.
  split; [lia|]. split; [reflexivity|].
  exact (proj1 (proj2 (other_failure_is_terminal (U := fragment)
                         (u "ABC") (u "2024-01-01") (u "2024-06-01") 5
                         (always (raising (u "invalid symbol")))
                         (u "invalid symbol") ltac:(lia) eq_refl)
                      eq_refl)).
Defined.

(** A long message is cut to 100 characters and "...". *)
Example long_message_is_cut :
  len (truncated (repeat 120%N 150)) = 103
  /\ truncated (u "invalid symbol") = u "invalid symbol".
Proof. split; vm_compute; reflexivity. Qed.

(** ** C6: no data is terminal *)

Section NoData.
Context `{U : PyUnicode}.

Lemma stocks_no_data (symbol start_date end_date : str) (max_retries : Z)
      (world : item_world) (a : Z) :
  0 <= a < max_retries ->
  (forall b, 0 <= b < a -> throttled (world b)) ->
  no_rows (world a) = true ->
  let run := download_vn_stocks.download_symbol_data
               symbol start_date end_date max_retries world in
  fst run = (symbol, false, u "Không có dữ liệu", 0)
  /\ attempts (snd run) = (Z.to_nat a + 1)%nat
  /\ writes (snd run) = []
  /\ (exists before,
         snd run = before ++ [EvGate; EvFetch symbol start_date end_date])
  /\ (a = 0 -> snd run = [EvGate; EvFetch symbol start_date end_date]).
Proof.
  intros Ha Hthr Hn run. subst run.
  unfold download_vn_stocks.download_symbol_data.
  destruct (StocksLoop.loop_returns_at symbol start_date end_date
              max_retries world a _ _ Ha Hthr
              (StocksLoop.body_no_rows symbol start_date end_date
                 max_retries world a Hn)) as [H1 [H2 [H3 H4]]].
  rewrite H1, H3, H4. repeat split.
  - eexists. exact H2.
  - intros ->. rewrite H2. reflexivity.
Qed.

End NoData.

(** C6.  When the fetch of an attempt returns an empty or absent row set
    (the attempts before it, if any, having been throttled), the loop ends
    on that attempt: the result is FAILED with the no-data message and row
    count 0, nothing follows the fetch (no wait, no retry), and no output
    file has been written for the item. *)
Theorem no_data_is_terminal `{U : PyUnicode}
        (symbol start_date end_date : str) (max_retries : Z)
        (world : item_world) (a : Z) :
  0 <= a < max_retries ->
  (forall b, 0 <= b < a -> throttled (world b)) ->
  no_rows (world a) = true ->
  let run := download_vn_stocks.download_symbol_data
               symbol start_date end_date max_retries world in
  let run30 := download_vn30.download_vn30_data
                 start_date end_date max_retries world in
  (fst run = (symbol, false, u "Không có dữ liệu", 0)
   /\ attempts (snd run) = (Z.to_nat a + 1)%nat
   /\ writes (snd run) = []
   /\ (exists before,
          snd run = before ++ [EvGate; EvFetch symbol start_date end_date])
   /\ (a = 0 -> snd run = [EvGate; EvFetch symbol start_date end_date]))
  /\ (fst run30 = (download_vn30.symbol, false, u "Không có dữ liệu", 0)
      /\ attempts (snd run30) = (Z.to_nat a + 1)%nat
      /\ writes (snd run30) = []
      /\ (exists before,
             snd run30
             = before ++ [EvGate; EvFetch download_vn30.symbol start_date end_date])
      /\ (a = 0 ->
          snd run30 = [EvGate; EvFetch download_vn30.symbol start_date end_date])).
Proof.
  intros Ha Hthr Hn run run30. subst run run30. rewrite vn30_data.
  split; apply stocks_no_data; assumption.
Qed.

Lemma throttled_then_empty_sample (b : Z) :
  0 <= b < 1 -> throttled (U := fragment) (throttled_then_empty b).
Proof.
  intros H. assert (b = 0) as -> by lia.
  exists (u "rate limit, retry after 10 seconds"). split; reflexivity.
Defined.

Lemma no_data_is_terminal_witness :
  0 <= 1 < 5
  /\ no_rows (throttled_then_empty 1) = true
  /\ fst (download_vn_stocks.download_symbol_data (U := fragment)
            (u "ABC") (u "2024-01-01") (u "2024-06-01") 5 throttled_then_empty)
     = (u "ABC", false, u "Không có dữ liệu", 0)
  /\ attempts (snd (download_vn_stocks.download_symbol_data (U := fragment)
                      (u "ABC") (u "2024-01-01") (u "2024-06-01") 5
                      throttled_then_empty)) = 2%nat
  /\ writes (snd (download_vn_stocks.download_symbol_data (U := fragment)
                    (u "ABC") (u "2024-01-01") (u "2024-06-01") 5
                    throttled_then_empty)) = [].
Proof.
  split; [lia|]. split; [reflexivity|].
  destruct (no_data_is_terminal (U := fragment)
              (u "ABC") (u "2024-01-01") (u "2024-06-01") 5
              throttled_then_empty 1 ltac:(lia)
              throttled_then_empty_sample eq_refl) as [[H1 [H2 [H3 _]]] _].
  split; [exact H1|]. split; [exact H2 | exact H3].
Defined.

(** ** C2: a stated wait is honoured with a five second buffer *)

Section ExplicitHint.
Context `{U : PyUnicode}.

Lemma sau_10_giay_found (pre post : str) :
  no_match_before pattern_sau (length pre) (pre ++ u "sau 10 giây" ++ post) ->
  download_vn_stocks.extract_wait_time (pre ++ u "sau 10 giây" ++ post)
  = Some 10.
Proof.
  intros H. unfold download_vn_stocks.extract_wait_time.
  rewrite stocks_patterns. cbn [download_vn_stocks.first_match].
  rewrite (search_skip _ _ _ H).
  assert (search pattern_sau (u "sau 10 giây" ++ post) = Some (u "10")) as ->.
  { pose proof (sau_10_giay_matches post) as M.
    change (u "sau 10 giây" ++ post)
      with (115%N :: (u "au 10 giây" ++ post)) in *.
    cbn [search]. rewrite M. reflexivity. }
  rewrite py_int_10. reflexivity.
Qed.

Lemma after_10_seconds_found (pre post : str) :
  search pattern_sau (pre ++ u "after 10 seconds" ++ post) = None ->
  no_match_before pattern_after (length pre)
                  (pre ++ u "after 10 seconds" ++ post) ->
  download_vn_stocks.extract_wait_time (pre ++ u "after 10 seconds" ++ post)
  = Some 10.
Proof.
  intros H1 H. unfold download_vn_stocks.extract_wait_time.
  rewrite stocks_patterns. cbn [download_vn_stocks.first_match].
  rewrite H1, (search_skip _ _ _ H).
  assert (search pattern_after (u "after 10 seconds" ++ post)
          = Some (u "10")) as ->.
  { pose proof (after_10_seconds_matches post) as M.
    change (u "after 10 seconds" ++ post)
      with (97%N :: (u "fter 10 seconds" ++ post)) in *.
    cbn [search]. rewrite M. reflexivity. }
  rewrite py_int_10. reflexivity.
Qed.

Lemma hint_wait (symbol error_msg : str) (max_retries attempt n : Z) :
  download_vn_stocks.is_rate_limit error_msg = true ->
  download_vn_stocks.extract_wait_time error_msg = Some n ->
  (attempt < max_retries - 1 ->
   download_vn_stocks.except_block symbol max_retries attempt error_msg
   = (Continue,
      download_vn_stocks.wait_with_countdown (n + 5) symbol ++ [EvStamp])
   /\ slept (snd (download_vn_stocks.except_block symbol max_retries attempt
                                                   error_msg)) = n + 5)
  /\ (max_retries - 1 <= attempt ->
      download_vn_stocks.except_block symbol max_retries attempt error_msg
      = (Return (symbol, false,
                 u "Rate limit (đã retry " ++ str_of_int max_retries
                   ++ u "x): chờ " ++ str_of_int (n + 5) ++ u "s", 0), [])).
Proof.
  intros Hr Hn. unfold download_vn_stocks.except_block. rewrite Hr, Hn.
  split; intros Ha.
  - apply Z.ltb_lt in Ha. rewrite Ha. split; [reflexivity|].
    cbn [snd]. rewrite slept_app, StocksLoop.wait_slept. simpl.
    pose proof (extract_wait_time_nonneg _ _ Hn). lia.
  - apply Z.ltb_ge in Ha. rewrite Ha. reflexivity.
Qed.

End ExplicitHint.

(** C2, as amended.  For an error text classified as throttling in which
    [extract_wait_time] finds the hint [n] - the number captured by the
    first of the patterns "sau N giây", "after N seconds", "N giây",
    "N seconds" that matches, at its leftmost match - the computed wait is
    [n + 5] seconds.  A text containing "sau 10 giây" with no earlier match
    of "sau N giây", or containing "after 10 seconds" with no match of
    "sau N giây" and no earlier match of "after N seconds", gives a wait of
    15 seconds. *)
Theorem explicit_wait_hint `{U : PyUnicode} (symbol error_msg : str)
        (max_retries attempt : Z) :
  download_vn_stocks.is_rate_limit error_msg = true ->
  (forall n,
      download_vn_stocks.extract_wait_time error_msg = Some n ->
      0 <= n
      /\ (attempt < max_retries - 1 ->
          download_vn_stocks.except_block symbol max_retries attempt error_msg
          = (Continue,
             download_vn_stocks.wait_with_countdown (n + 5) symbol ++ [EvStamp])
          /\ slept (snd (download_vn_stocks.except_block
                           symbol max_retries attempt error_msg)) = n + 5)
      /\ (max_retries - 1 <= attempt ->
          download_vn_stocks.except_block symbol max_retries attempt error_msg
          = (Return (symbol, false,
                     u "Rate limit (đã retry " ++ str_of_int max_retries
                       ++ u "x): chờ " ++ str_of_int (n + 5) ++ u "s", 0), []))
      /\ download_vn30.except_block max_retries attempt error_msg
         = download_vn_stocks.except_block download_vn30.symbol max_retries
                                           attempt error_msg)
  /\ (forall pre post,
         error_msg = pre ++ u "sau 10 giây" ++ post ->
         no_match_before pattern_sau (length pre) error_msg ->
         download_vn_stocks.extract_wait_time error_msg = Some 10
         /\ (attempt < max_retries - 1 ->
             slept (snd (download_vn_stocks.except_block
                           symbol max_retries attempt error_msg)) = 15))
  /\ (forall pre post,
         error_msg = pre ++ u "after 10 seconds" ++ post ->
         search pattern_sau error_msg = None ->
         no_match_before pattern_after (length pre) error_msg ->
         download_vn_stocks.extract_wait_time error_msg = Some 10
         /\ (attempt < max_retries - 1 ->
             slept (snd (download_vn_stocks.except_block
                           symbol max_retries attempt error_msg)) = 15)).
Proof.
  intros Hr. split; [|split].
  - intros n Hn.
    destruct (hint_wait symbol error_msg max_retries attempt n Hr Hn)
      as [H1 H2].
    split; [exact (extract_wait_time_nonneg _ _ Hn)|].
    split; [exact H1|]. split; [exact H2 | reflexivity].
  - intros pre post E Hb.
    assert (download_vn_stocks.extract_wait_time error_msg = Some 10) as Hn
        by (subst error_msg; apply sau_10_giay_found; exact Hb).
    split; [exact Hn|]. intros Ha.
    destruct (hint_wait symbol error_msg max_retries attempt 10 Hr Hn)
      as [H1 _].
    destruct (H1 Ha) as [_ ->]. reflexivity.
  - intros pre post E Hs Hb.
    assert (download_vn_stocks.extract_wait_time error_msg = Some 10) as Hn
        by (subst error_msg; apply after_10_seconds_found; assumption).
    split; [exact Hn|]. intros Ha.
    destruct (hint_wait symbol error_msg max_retries attempt 10 Hr Hn)
      as [H1 _].
    destruct (H1 Ha) as [_ ->]. reflexivity.
Qed.

Lemma explicit_wait_hint_witness :
  download_vn_stocks.is_rate_limit (U := fragment)
    (u "Rate limit. Vui lòng thử lại sau 10 giây") = true
  /\ download_vn_stocks.extract_wait_time (U := fragment)
       (u "Rate limit. Vui lòng thử lại sau 10 giây") = Some 10
  /\ slept (snd (download_vn_stocks.except_block (U := fragment) (u "ABC") 5 0
                   (u "Rate limit. Vui lòng thử lại sau 10 giây"))) = 10 + 5.
Proof.
  split; [reflexivity|]. split; [reflexivity|].
  destruct (explicit_wait_hint (U := fragment) (u "ABC")
              (u "Rate limit. Vui lòng thử lại sau 10 giây") 5 0 eq_refl)
    as [H _].
  destruct (H 10 eq_refl) as [_ [H1 _]].
  exact (proj2 (H1 ltac:(lia))).
Defined.

(** C2 as stated fails: this text is classified as throttling and contains
    "after 10 seconds", yet the wait is 3 + 5 seconds, because the pattern
    "sau N giây" is tried first. *)
Lemma explicit_wait_hint_counterexample :
  download_vn_stocks.is_rate_limit (U := fragment)
    (u "Rate limit: retry after 10 seconds (thử lại sau 3 giây)") = true
  /\ str_in (u "after 10 seconds")
            (u "Rate limit: retry after 10 seconds (thử lại sau 3 giây)") = true
  /\ download_vn_stocks.except_block (U := fragment) (u "ABC") 5 0
       (u "Rate limit: retry after 10 seconds (thử lại sau 3 giây)")
     = (Continue,
        download_vn_stocks.wait_with_countdown 8 (u "ABC") ++ [EvStamp])
  /\ slept (snd (download_vn_stocks.except_block (U := fragment) (u "ABC") 5 0
                   (u "Rate limit: retry after 10 seconds (thử lại sau 3 giây)")))
     = 8
  /\ 8 <> 15.
Proof. repeat split; try (vm_compute; reflexivity). lia. Qed.

(** ** C10: the order of the patterns *)


Example extract_wait_time_samples :
  download_vn_stocks.extract_wait_time (U := fragment)
    (u "Vui lòng thử lại sau 10 giây") = Some 10
  /\ download_vn_stocks.extract_wait_time (U := fragment)
       (u "Retry AFTER  30 Seconds") = Some 30
  /\ download_vn_stocks.extract_wait_time (U := fragment)
       (u "blocked for 45 seconds") = Some 45
  /\ download_vn_stocks.extract_wait_time (U := fragment)
       (u "chờ 7 giây") = Some 7
  /\ download_vn_stocks.extract_wait_time (U := fragment)
       (u "after 20 seconds, then sau 3 giây") = Some 3
  /\ download_vn_stocks.extract_wait_time (U := fragment)
       (u "wait 10seconds") = None
  /\ download_vn_stocks.extract_wait_time (U := fragment)
       (u "Rate limit exceeded") = None.
Proof. repeat split; vm_compute; reflexivity. Qed.

(** ** C7: resuming a batch *)

Section PathFacts.

Lemma endswith_spec (suffix s : str) :
  endswith suffix s = true <-> exists x, s = x ++ suffix.
Proof.
  unfold endswith. rewrite startswith_spec. split.
  - intros [post H]. exists (rev post).
    apply (f_equal (@rev N)) in H. rewrite rev_involutive in H.
    rewrite H, rev_app_distr, rev_involutive. reflexivity.
  - intros [x ->]. exists (rev x). apply rev_app_distr.
Qed.

Lemma rfind_from_absent (c : N) (s : str) (i : Z) :
  ~ In c s -> rfind_from c s i = -1.
Proof.
  revert i. induction s as [|x s IH]; intros i H; [reflexivity|].
  simpl. rewrite IH by (intros Hc; apply H; right; exact Hc). simpl.
  destruct (N.eqb_spec x c) as [->|]; [|reflexivity].
  exfalso. apply H. left. reflexivity.
Qed.

Lemma rfind_from_last (c : N) (x tail : str) (i : Z) :
  0 <= i -> ~ In c tail ->
  rfind_from c (x ++ c :: tail) i = i + len x.
Proof.
  revert i. induction x as [|a x IH]; intros i Hi Ht.
  - simpl. rewrite rfind_from_absent by exact Ht. simpl.
    rewrite N.eqb_refl. unfold len. simpl. lia.
  - cbn [app rfind_from]. rewrite IH by (lia || exact Ht).
    unfold len. cbn [length].
    destruct (Z.geb_spec (i + 1 + Z.of_nat (length x)) 0); lia.
Qed.

Lemma stem_parquet (x : str) : x <> [] -> stem (x ++ u ".parquet") = x.
Proof.
  intros Hx. unfold stem, rfind.
  change (u ".parquet") with (46%N :: u "parquet").
  rewrite rfind_from_last; [|lia|].
  - unfold len. rewrite length_app. cbn [length].
    destruct x as [|a x]; [contradiction|]. cbn [length].
    destruct (Z.ltb_spec 0 (0 + Z.of_nat (S (length x)))); [|lia].
    destruct (Z.ltb_spec (0 + Z.of_nat (S (length x)))
                (Z.of_nat (S (length x) + S (length (u "parquet"))) - 1));
      [|simpl in *; lia].
    cbn [andb]. unfold slice_to.
    replace (Z.to_nat (0 + Z.of_nat (S (length x)))) with (length (a :: x))
      by (simpl; lia).
    rewrite firstn_app, Nat.sub_diag, firstn_all. cbn [firstn].
    apply app_nil_r.
  - vm_compute. intuition discriminate.
Qed.

Lemma elem_existing_files `{U : PyUnicode} (s : str) (dir : directory) :
  ticker s ->
  s ∈ download_vn_stocks.existing_files dir <-> s ++ u ".parquet" ∈ dir.
Proof.
  intros Ht. unfold download_vn_stocks.existing_files, glob_parquet.
  rewrite elem_of_map. split.
  - intros [name [Hs Hn]]. apply elem_of_filter in Hn as [He Hn].
    apply endswith_spec in He as [x ->].
    destruct x as [|a x].
    + change (stem ([] ++ u ".parquet")) with (u ".parquet") in Hs.
      subst s. exfalso. vm_compute in Ht. apply Ht. reflexivity.
    + rewrite stem_parquet in Hs by discriminate. subst s. exact Hn.
  - intros H. exists (s ++ u ".parquet"). split.
    + symmetry. apply stem_parquet. intros ->. exact Ht.
    + apply elem_of_filter. split; [|exact H].
      apply endswith_spec. eauto.
Qed.

End PathFacts.

Lemma filter_twice {A : Type} (f g : A -> bool) (l : list A) :
  List.filter f (List.filter g l) = List.filter (fun x => f x && g x) l.
Proof.
  induction l as [|x l IH]; [reflexivity|].
  cbn [List.filter]. destruct (g x); cbn [List.filter].
  - rewrite andb_true_r. destruct (f x); rewrite IH; reflexivity.
  - rewrite andb_false_r. exact IH.
Qed.

Section Resume.
Context `{U : PyUnicode}.
Variables (start_date end_date : str).

Local Abbreviation run_of := (run_item start_date end_date).

Lemma processed_spec (symbols : list str) (dir : directory)
      (world : str -> item_world) :
  download_vn_stocks.processed
    (download_vn_stocks.download_all_symbols start_date end_date symbols
                                             dir world)
  = download_vn_stocks.symbols_to_download symbols dir.
Proof.
  unfold download_vn_stocks.download_all_symbols.
  destruct symbols as [|s symbols]; [reflexivity|].
  destruct (download_vn_stocks.symbols_to_download (s :: symbols) dir);
    reflexivity.
Qed.

Lemma todo_spec (symbols : list str) (dir : directory) :
  Forall ticker symbols ->
  download_vn_stocks.symbols_to_download symbols dir
  = List.filter (fun s => bool_decide (s ++ u ".parquet" ∉ dir)) symbols.
Proof.
  intros Ht. unfold download_vn_stocks.symbols_to_download.
  apply List.filter_ext_in. intros s Hs.
  apply bool_decide_ext.
  rewrite List.Forall_forall in Ht.
  rewrite (elem_existing_files s dir (Ht s Hs)). reflexivity.
Qed.

Lemma written_spec (world : str -> item_world) (todo : list str) (f : str) :
  In f (flat_map (fun r : result * trace => writes (snd r))
                 (map (fun symbol => download_vn_stocks.download_symbol_data symbol start_date end_date 5 (world symbol)) todo))
  <-> exists s, In s todo
                /\ res_success (fst (run_of world s)) = true
                /\ f = s ++ u ".parquet".
Proof.
  unfold run_item. rewrite in_flat_map. split.
  - intros [r [Hr Hf]]. apply in_map_iff in Hr as [s [<- Hs]].
    cbn beta in Hf. exists s. split; [exact Hs|].
    destruct (StocksLoop.loop_result s start_date end_date 5 (world s)
                (range 5)) as [_ Hw].
    unfold download_vn_stocks.download_symbol_data in *.
    rewrite Hw in Hf.
    destruct (res_success _); [|contradiction].
    destruct Hf as [<-|[]]. split; reflexivity.
  - intros [s [Hs [Hok ->]]].
    exists (download_vn_stocks.download_symbol_data s start_date end_date 5
                                                    (world s)).
    split; [apply (in_map (fun symbol =>
                             download_vn_stocks.download_symbol_data
                               symbol start_date end_date 5 (world symbol)));
            exact Hs|].
    destruct (StocksLoop.loop_result s start_date end_date 5 (world s)
                (range 5)) as [_ Hw].
    unfold download_vn_stocks.download_symbol_data in *.
    rewrite Hw, Hok. left. reflexivity.
Qed.

Lemma failed_spec (world : str -> item_world) (todo : list str) :
  map res_symbol
      (List.filter (fun r => negb (res_success r))
                   (map fst (map (fun symbol => download_vn_stocks.download_symbol_data symbol start_date end_date 5 (world symbol)) todo)))
  = List.filter (fun s => negb (res_success (fst (run_of world s)))) todo.
Proof.
  unfold run_item.
  induction todo as [|s todo IH]; [reflexivity|].
  cbn [map List.filter].
  destruct (negb (res_success
                    (fst (download_vn_stocks.download_symbol_data
                            s start_date end_date 5 (world s))))) eqn:E.
  - cbn [map]. rewrite IH. f_equal.
    apply (StocksLoop.loop_result s start_date end_date 5 (world s) (range 5)).
  - exact IH.
Qed.

Lemma second_run (symbols : list str) (dir : directory)
      (world : str -> item_world) (others : gset str) :
  Forall ticker symbols ->
  (forall name, name ∈ others -> endswith (u ".parquet") name = false) ->
  download_vn_stocks.symbols_to_download
    symbols
    (download_vn_stocks.dir_after
       dir
       (download_vn_stocks.download_all_symbols start_date end_date symbols
                                                dir world)
       others)
  = failed_symbols
      (download_vn_stocks.download_all_symbols start_date end_date symbols
                                               dir world).
Proof.
  intros Ht Ho.
  pose proof (written_spec world) as Hwritten.
  pose proof (failed_spec world) as Hfailed.
  unfold run_item in *.
  pose proof (processed_spec symbols dir world) as Hp.
  destruct (download_vn_stocks.download_all_symbols
              start_date end_date symbols dir world) as [b|] eqn:E.
  - unfold download_vn_stocks.download_all_symbols in E.
    destruct symbols as [|s0 symbols0] eqn:Es; [discriminate|].
    rewrite <- Es in *. clear Es.
    destruct (download_vn_stocks.symbols_to_download symbols dir)
      as [|t0 todo0] eqn:Et; [destruct symbols; discriminate|].
    rewrite <- Et in *.
    assert (b = {| download_vn_stocks.submitted :=
                     download_vn_stocks.symbols_to_download symbols dir;
                   download_vn_stocks.outcomes :=
                     map fst (map (fun symbol => download_vn_stocks.download_symbol_data symbol start_date end_date 5 (world symbol))
                                  (download_vn_stocks.symbols_to_download
                                     symbols dir));
                   download_vn_stocks.written :=
                     flat_map (fun r : result * trace => writes (snd r))
                              (map (fun symbol => download_vn_stocks.download_symbol_data symbol start_date end_date 5 (world symbol))
                                   (download_vn_stocks.symbols_to_download
                                      symbols dir)) |}) as ->.
    { destruct symbols; [discriminate|]. rewrite Et in E.
      injection E as <-. rewrite Et. reflexivity. }
    clear E Hp. cbn [failed_symbols download_vn_stocks.outcomes
                       download_vn_stocks.dir_after
                       download_vn_stocks.written].
    rewrite Hfailed.
    rewrite (todo_spec symbols _ Ht). rewrite (todo_spec symbols dir Ht).
    rewrite filter_twice.
    apply List.filter_ext_in. intros s Hs.
    rewrite List.Forall_forall in Ht. pose proof (Ht s Hs) as Hts.
    destruct (bool_decide (s ++ u ".parquet" ∉ dir)) eqn:Hd.
    + apply bool_decide_eq_true in Hd. rewrite andb_true_r.
      destruct (res_success (fst (download_vn_stocks.download_symbol_data
                                   s start_date end_date 5 (world s))))
        eqn:Hok; cbn [negb].
      * apply bool_decide_eq_false. intros Hn. apply Hn.
        apply elem_of_union_l, elem_of_union_r, elem_of_list_to_set,
              list_elem_of_In, Hwritten.
        exists s. repeat split; auto.
        apply List.filter_In. split; [exact Hs|].
        apply bool_decide_eq_true. exact Hd.
      * apply bool_decide_eq_true. intros Hin.
        apply elem_of_union in Hin as [Hin|Hin].
        -- apply elem_of_union in Hin as [Hin|Hin]; [contradiction|].
           apply elem_of_list_to_set, list_elem_of_In, Hwritten in Hin
             as [s' [_ [Hok' Heq]]].
           apply app_inv_tail in Heq. subst s'. congruence.
        -- apply Ho in Hin.
           assert (endswith (u ".parquet") (s ++ u ".parquet") = true)
             by (apply endswith_spec; eauto).
           congruence.
    + rewrite andb_false_r. apply bool_decide_eq_false.
      apply bool_decide_eq_false in Hd. intros Hn. apply Hd. intros Hin.
      apply Hn. apply elem_of_union_l, elem_of_union_l. exact Hin.
  - cbn [download_vn_stocks.dir_after failed_symbols]. rewrite <- Hp.
    reflexivity.
Qed.

End Resume.


Lemma driver_files_not_parquet (name : str) :
  name ∈ driver_files -> endswith (u ".parquet") name = false.
Proof.
  unfold driver_files. intros H.
  apply elem_of_union in H as [H|H]; apply elem_of_singleton in H;
    subst name; reflexivity.
Defined.

Lemma sample_tickers : Forall ticker [u "AAA"; u "BBB"].
Proof. repeat constructor; discriminate. Defined.



(** ** C8: exit codes *)



(** The download of VN30 that ends FAILED ends the script with code 1. *)
Example vn30_failure_exit :
  download_vn30.run_main (U := fragment) None (u "1990-01-01")
    (u "2024-06-01") false false (Returns []) (always (returning None))
  = Exit 1.
Proof. vm_compute. reflexivity. Qed.

(** ** C9: the rate gate under all interleavings *)

Module GateFacts.
Import RateGate.
Section Invariant.
Variable min_request_interval : Z.

Local Abbreviation step := (RateGate.step min_request_interval).
Local Abbreviation run := (RateGate.run min_request_interval).
Local Abbreviation spaced := (RateGate.spaced min_request_interval).

Local Abbreviation inv := (gate_inv min_request_interval).

Lemma pc_of_set_pc (t t' : nat) (p : pc) (s : state) :
  pc_of (set_pc t p s) t' = if decide (t = t') then p else pc_of s t'.
Proof.
  unfold pc_of, set_pc. simpl. destruct (decide (t = t')) as [->|Hne].
  - rewrite lookup_insert_eq. reflexivity.
  - rewrite lookup_insert_ne by exact Hne. reflexivity.
Qed.

Lemma inv_init (now : Z) : inv (init now).
Proof.
  split; simpl; try (intros; contradiction || discriminate || exact I).
Qed.

(** In a state of the invariant only the holder of the lock is inside a
    block. *)
Lemma others_idle (s : state) (t t' : nat) :
  inv s -> in_block s t -> t' <> t -> pc_of s t' = Idle.
Proof.
  intros I Ht Hne. destruct (pc_of s t') eqn:E; try reflexivity;
    exfalso; apply Hne;
    (assert (lock s = Some t') as H1
        by (apply (lock_held min_request_interval s I); unfold in_block; rewrite E; discriminate));
    pose proof (lock_held min_request_interval s I t Ht) as H2; congruence.
Qed.

Lemma free_lock_all_idle (s : state) (t : nat) :
  inv s -> lock s = None -> pc_of s t = Idle.
Proof.
  intros I Hl. destruct (pc_of s t) eqn:E; try reflexivity;
    (assert (lock s = Some t) as H1
        by (apply (lock_held min_request_interval s I); unfold in_block; rewrite E; discriminate));
    congruence.
Qed.

Lemma inv_step (a : action) (s s' : state) :
  inv s -> step a s = Some s' -> inv s'.
Proof.
  intros I. destruct a as [d|t|t|t|t|t|t|t]; simpl.
  - (* time passes *)
    destruct (Z.leb_spec 0 d); [|discriminate]. intros [= <-].
    split; simpl.
    + intros g Hg. pose proof (grants_past min_request_interval s I g Hg). lia.
    + apply (last_grant_stamped min_request_interval s I).
    + apply (grants_spaced min_request_interval s I).
    + apply (lock_held min_request_interval s I).
    + apply (sleeper_wakes_late min_request_interval s I).
    + intros t Ht. pose proof (stamper_is_late min_request_interval s I t Ht). lia.
  - (* the gate takes the lock *)
    destruct (lock s) eqn:Hl; [discriminate|].
    destruct (pc_of s t) eqn:Hp; try discriminate. intros [= <-].
    split; simpl; try apply I.
    + intros t' Ht'. unfold in_block in Ht'. rewrite pc_of_set_pc in Ht'.
      destruct (decide (t = t')) as [->|Hne]; [reflexivity|].
      exfalso. apply Ht'. apply (free_lock_all_idle s t' I Hl).
    + intros t' w. rewrite pc_of_set_pc.
      destruct (decide (t = t')); [discriminate|].
      change (pc_of s t' = Sleeping w -> last_request_time s + min_request_interval <= w).
      rewrite (free_lock_all_idle s t' I Hl). discriminate.
    + intros t'. rewrite pc_of_set_pc.
      destruct (decide (t = t')); [discriminate|].
      change (pc_of s t' = AtStamp -> last_request_time s + min_request_interval <= clock s).
      rewrite (free_lock_all_idle s t' I Hl). discriminate.
  - (* the elapsed time is checked *)
    destruct (pc_of s t) eqn:Hp; try discriminate.
    assert (in_block s t) as Hin by (unfold in_block; congruence).
    destruct (Z.ltb_spec (clock s - last_request_time s) min_request_interval);
      intros [= <-]; split; simpl; try apply I.
    + intros t' Ht'. unfold in_block in Ht'. rewrite pc_of_set_pc in Ht'.
      destruct (decide (t = t')) as [<-|Hne];
        [apply (lock_held min_request_interval s I t Hin) | apply (lock_held min_request_interval s I t' Ht')].
    + intros t' w. rewrite pc_of_set_pc.
      destruct (decide (t = t')); [intros [= <-]; lia|].
      apply (sleeper_wakes_late min_request_interval s I).
    + intros t'. rewrite pc_of_set_pc.
      destruct (decide (t = t')); [discriminate|].
      apply (stamper_is_late min_request_interval s I).
    + intros t' Ht'. unfold in_block in Ht'. rewrite pc_of_set_pc in Ht'.
      destruct (decide (t = t')) as [<-|Hne];
        [apply (lock_held min_request_interval s I t Hin) | apply (lock_held min_request_interval s I t' Ht')].
    + intros t' w. rewrite pc_of_set_pc.
      destruct (decide (t = t')); [discriminate|].
      apply (sleeper_wakes_late min_request_interval s I).
    + intros t'. rewrite pc_of_set_pc.
      destruct (decide (t = t')); [intros _; lia|].
      apply (stamper_is_late min_request_interval s I).
  - (* the sleep returns *)
    destruct (pc_of s t) eqn:Hp; try discriminate.
    assert (in_block s t) as Hin by (unfold in_block; congruence).
    destruct (Z.leb_spec wake (clock s)); [|discriminate].
    intros [= <-]; split; simpl; try apply I.
    + intros t' Ht'. unfold in_block in Ht'. rewrite pc_of_set_pc in Ht'.
      destruct (decide (t = t')) as [<-|Hne];
        [apply (lock_held min_request_interval s I t Hin) | apply (lock_held min_request_interval s I t' Ht')].
    + intros t' w. rewrite pc_of_set_pc.
      destruct (decide (t = t')); [discriminate|].
      apply (sleeper_wakes_late min_request_interval s I).
    + intros t'. rewrite pc_of_set_pc.
      destruct (decide (t = t')).
      * intros _. pose proof (sleeper_wakes_late min_request_interval s I t wake Hp). lia.
      * apply (stamper_is_late min_request_interval s I).
  - (* the gate records the request *)
    destruct (pc_of s t) eqn:Hp; try discriminate.
    assert (in_block s t) as Hin by (unfold in_block; congruence).
    pose proof (stamper_is_late min_request_interval s I t Hp) as Hlate.
    intros [= <-]; split; simpl.
    + intros g [<-|Hg]; [lia|]. apply (grants_past min_request_interval s I g Hg).
    + intros g [= <-]. lia.
    + destruct (grants s) as [|g gs] eqn:Hg; [trivial|].
      split.
      * pose proof (last_grant_stamped min_request_interval s I g) as H1. rewrite Hg in H1.
        specialize (H1 eq_refl). lia.
      * pose proof (grants_spaced min_request_interval s I) as H1. rewrite Hg in H1. exact H1.
    + intros t' Ht'. unfold in_block in Ht'. rewrite pc_of_set_pc in Ht'.
      destruct (decide (t = t')) as [<-|Hne];
        [apply (lock_held min_request_interval s I t Hin) | apply (lock_held min_request_interval s I t' Ht')].
    + intros t' w. rewrite pc_of_set_pc.
      destruct (decide (t = t')); [discriminate|].
      change (pc_of s t' = Sleeping w -> clock s + min_request_interval <= w).
      rewrite (others_idle s t t' I Hin) by congruence. discriminate.
    + intros t'. rewrite pc_of_set_pc.
      destruct (decide (t = t')); [discriminate|].
      change (pc_of s t' = AtStamp -> clock s + min_request_interval <= clock s).
      rewrite (others_idle s t t' I Hin) by congruence. discriminate.
  - (* the lock is taken after a wait *)
    destruct (lock s) eqn:Hl; [discriminate|].
    destruct (pc_of s t) eqn:Hp; try discriminate. intros [= <-].
    split; simpl; try apply I.
    + intros t' Ht'. unfold in_block in Ht'. rewrite pc_of_set_pc in Ht'.
      destruct (decide (t = t')) as [->|Hne]; [reflexivity|].
      exfalso. apply Ht'. apply (free_lock_all_idle s t' I Hl).
    + intros t' w. rewrite pc_of_set_pc.
      destruct (decide (t = t')); [discriminate|].
      change (pc_of s t' = Sleeping w -> last_request_time s + min_request_interval <= w).
      rewrite (free_lock_all_idle s t' I Hl). discriminate.
    + intros t'. rewrite pc_of_set_pc.
      destruct (decide (t = t')); [discriminate|].
      change (pc_of s t' = AtStamp -> last_request_time s + min_request_interval <= clock s).
      rewrite (free_lock_all_idle s t' I Hl). discriminate.
  - (* the stamp after a wait *)
    destruct (pc_of s t) eqn:Hp; try discriminate.
    assert (in_block s t) as Hin by (unfold in_block; congruence).
    intros [= <-]; split; simpl; try apply I.
    + intros g Hg. apply (grants_past min_request_interval s I g).
      destruct (grants s); [discriminate|]. injection Hg as <-. left.
      reflexivity.
    + intros t' Ht'. unfold in_block in Ht'. rewrite pc_of_set_pc in Ht'.
      destruct (decide (t = t')) as [<-|Hne];
        [apply (lock_held min_request_interval s I t Hin) | apply (lock_held min_request_interval s I t' Ht')].
    + intros t' w. rewrite pc_of_set_pc.
      destruct (decide (t = t')); [discriminate|].
      change (pc_of s t' = Sleeping w -> clock s + min_request_interval <= w).
      rewrite (others_idle s t t' I Hin) by congruence. discriminate.
    + intros t'. rewrite pc_of_set_pc.
      destruct (decide (t = t')); [discriminate|].
      change (pc_of s t' = AtStamp -> clock s + min_request_interval <= clock s).
      rewrite (others_idle s t t' I Hin) by congruence. discriminate.
  - (* the lock is released *)
    destruct (pc_of s t) eqn:Hp; try discriminate.
    assert (in_block s t) as Hin by (unfold in_block; congruence).
    intros [= <-]; split; simpl; try apply I.
    + intros t' Ht'. unfold in_block in Ht'. rewrite pc_of_set_pc in Ht'.
      destruct (decide (t = t')) as [<-|Hne]; [contradiction|].
      exfalso. apply Ht'. apply (others_idle s t t' I Hin). congruence.
    + intros t' w. rewrite pc_of_set_pc.
      destruct (decide (t = t')); [discriminate|].
      apply (sleeper_wakes_late min_request_interval s I).
    + intros t'. rewrite pc_of_set_pc.
      destruct (decide (t = t')); [discriminate|].
      apply (stamper_is_late min_request_interval s I).
Qed.

Lemma inv_run (acts : list action) (s s' : state) :
  inv s -> run acts s = Some s' -> inv s'.
Proof.
  revert s. induction acts as [|a acts IH]; intros s I; simpl.
  - intros [= <-]. exact I.
  - destruct (step a s) as [s1|] eqn:E; [|discriminate].
    apply IH. apply (inv_step a s s1 I E).
Qed.

End Invariant.
End GateFacts.

(** C9.  For every set of threads that call the gate and every
    interleaving of their statements, any two consecutive granted
    acquisitions are at least [min_request_interval] apart; and from the
    check of the elapsed time to the update of [last_request_time] the
    thread holds the one lock, while every other thread is outside the
    blocks the lock protects. *)
Theorem rate_gate_spacing (min_request_interval now : Z)
        (acts : list RateGate.action) (s : RateGate.state) :
  RateGate.run min_request_interval acts (RateGate.init now) = Some s ->
  RateGate.spaced min_request_interval (RateGate.grants s)
  /\ (forall t, RateGate.between_check_and_update s t ->
                RateGate.lock s = Some t
                /\ forall t', t' <> t -> RateGate.pc_of s t' = RateGate.Idle)
  /\ (forall t, RateGate.in_block s t -> RateGate.lock s = Some t).
Proof.
  intros H.
  pose proof (GateFacts.inv_run min_request_interval acts _ s
                (GateFacts.inv_init min_request_interval now) H) as I.
  split; [apply (grants_spaced _ s I)|].
  split; [|apply (lock_held _ s I)].
  intros t Ht.
  assert (RateGate.in_block s t) as Hin.
  { unfold RateGate.in_block.
    destruct Ht as [E|[[w E]|E]]; rewrite E; discriminate. }
  split; [apply (lock_held _ s I t Hin)|].
  intros t' Hne. apply (GateFacts.others_idle _ s t t' I Hin Hne).
Qed.

Lemma rate_gate_spacing_witness :
  exists s,
    RateGate.run 2 sample_schedule (RateGate.init 100) = Some s
    /\ RateGate.grants s = [102; 100]
    /\ RateGate.spaced 2 (RateGate.grants s).
Proof.
  destruct (RateGate.run 2 sample_schedule (RateGate.init 100)) as [s|] eqn:E;
    [|vm_compute in E; discriminate].
  exists s. split; [reflexivity|].
  split; [|exact (proj1 (rate_gate_spacing 2 100 sample_schedule s E))].
  vm_compute in E. injection E as <-. reflexivity.
Defined.

(** While a thread is between its check and its update no other thread can
    enter, and a sleeper cannot be woken before its time. *)
Example gate_is_exclusive :
  RateGate.run 2 [RateGate.Enter 0; RateGate.Check 0; RateGate.Enter 1]
               (RateGate.init 100) = None
  /\ RateGate.run 2 [RateGate.Enter 0; RateGate.Check 0; RateGate.EnterBackoff 1]
                  (RateGate.init 100) = None
  /\ RateGate.run 2 [RateGate.Enter 0; RateGate.Check 0; RateGate.Stamp 0;
                     RateGate.Leave 0; RateGate.Enter 1; RateGate.Check 1;
                     RateGate.Tick 1; RateGate.Wake 1]
                  (RateGate.init 100) = None.
Proof. repeat split; vm_compute; reflexivity. Qed.

(** * Further properties of the two scripts *)

(** ** The retry loop: what a run leaves behind *)

Module LoopExtras.
Import download_vn_stocks.
Section Loop.
Context `{U : PyUnicode}.
Variables (symbol start_date end_date : str) (max_retries : Z)
          (world : item_world).

Local Abbreviation fetch_events := [EvGate; EvFetch symbol start_date end_date].
Local Abbreviation body := (loop_body symbol start_date end_date max_retries world).
Local Abbreviation loop := (for_attempts symbol start_date end_date max_retries world).

(** What the passes can be. *)
Lemma body_cases (a : Z) :
  (exists r, body a = (Return r, fetch_events)
             /\ res_success r = false /\ res_row_count r = 0)
  \/ (exists df,
         history (world a) = HistoryReturns (Some df)
         /\ df_empty df = false
         /\ body a
            = (Return (symbol, true,
                       u "OK: " ++ hd [] (df_index df) ++ u " -> "
                         ++ List.last (df_index df) [],
                       Z.of_nat (length (df_index df))),
               fetch_events ++ [EvWrite (output_file symbol)]))
  \/ (exists wait_time,
         a < max_retries - 1
         /\ body a
            = (Continue,
               fetch_events ++ wait_with_countdown wait_time symbol ++ [EvStamp])).
Proof.
  unfold loop_body, try_block.
  destruct (history (world a)) as [e|[df|]] eqn:H.
  - unfold except_block.
    destruct (is_rate_limit e).
    + destruct (extract_wait_time e) as [n|];
        destruct (Z.ltb_spec a (max_retries - 1)).
      * right. right. exists (n + 5). split; [lia | reflexivity].
      * left. eexists. split; [reflexivity | split; reflexivity].
      * right. right. exists (2 ^ a * 15). split; [lia | reflexivity].
      * left. eexists. split; [reflexivity | split; reflexivity].
    + left. eexists. split; [reflexivity | split; reflexivity].
  - destruct (df_empty df) eqn:He.
    + left. eexists. split; [reflexivity | split; reflexivity].
    + destruct (to_parquet (world a)) as [|e].
      * right. left. exists df.
        split; [reflexivity|]. split; [exact He | reflexivity].
      * unfold except_block.
        destruct (is_rate_limit e).
        -- destruct (extract_wait_time e) as [n|];
             destruct (Z.ltb_spec a (max_retries - 1)).
           ++ right. right. exists (n + 5). split; [lia | reflexivity].
           ++ left. eexists. split; [reflexivity | split; reflexivity].
           ++ right. right. exists (2 ^ a * 15). split; [lia | reflexivity].
           ++ left. eexists. split; [reflexivity | split; reflexivity].
        -- left. eexists. split; [reflexivity | split; reflexivity].
  - left. eexists. split; [reflexivity | split; reflexivity].
Qed.

Lemma phase_run_app (p : phase) (tr1 tr2 : trace) :
  phase_run p (tr1 ++ tr2)
  = match phase_run p tr1 with
    | Some p' => phase_run p' tr2
    | None => None
    end.
Proof.
  revert p. induction tr1 as [|e tr1 IH]; intros p; [reflexivity|].
  cbn [app phase_run]. destruct (phase_step p e); [apply IH | reflexivity].
Qed.

Lemma countdown_phase (w : Z) :
  phase_run PFetch (wait_with_countdown w symbol ++ [EvStamp]) = Some PStamp.
Proof.
  unfold wait_with_countdown. destruct (w <=? 0); [reflexivity|].
  destruct (range w) as [|x l]; [reflexivity|].
  cbn [map app phase_run phase_step].
  induction l as [|y l IH]; [reflexivity | exact IH].
Qed.

(** A pass that starts where a pass may start ends with its fetch, with
    the write, or, when it says [Continue], with the stamp. *)
Lemma body_phase (a : Z) (p : phase) :
  p = PStart \/ p = PStamp ->
  match fst (body a) with
  | Return _ =>
    phase_run p (snd (body a)) = Some PFetch
    \/ phase_run p (snd (body a)) = Some PDone
  | Continue =>
    phase_run p (snd (body a)) = Some PStamp /\ a < max_retries - 1
  end.
Proof.
  intros Hp.
  destruct (body_cases a) as [[r [E _]] | [[df [_ [_ E]]] | [w [Ha E]]]];
    rewrite E; cbn [fst snd].
  - left. destruct Hp as [->| ->]; reflexivity.
  - right. destruct Hp as [->| ->]; reflexivity.
  - split; [|exact Ha].
    change (fetch_events ++ wait_with_countdown w symbol ++ [EvStamp])
      with (EvGate :: EvFetch symbol start_date end_date
              :: (wait_with_countdown w symbol ++ [EvStamp])).
    destruct Hp as [->| ->]; cbn [phase_run phase_step];
      apply countdown_phase.
Qed.

Lemma loop_phase (n k : nat) (p : phase) :
  p = PStart \/ p = PStamp ->
  0 <= max_retries -> (k + n = Z.to_nat max_retries)%nat -> (1 <= n)%nat ->
  phase_run p (snd (loop (map Z.of_nat (seq k n)))) = Some PFetch
  \/ phase_run p (snd (loop (map Z.of_nat (seq k n)))) = Some PDone.
Proof.
  revert k p. induction n as [|n IH]; intros k p Hp Hm Hk Hn; [lia|].
  cbn [seq map for_attempts].
  pose proof (body_phase (Z.of_nat k) p Hp) as Hb.
  destruct (body (Z.of_nat k)) as [[r|] tr]; cbn [fst snd] in *.
  - exact Hb.
  - destruct Hb as [Hb Hlt].
    destruct (loop (map Z.of_nat (seq (S k) n))) as [r' tr'] eqn:E.
    cbn [snd]. rewrite phase_run_app, Hb.
    specialize (IH (S k) PStamp (or_intror eq_refl) Hm ltac:(lia) ltac:(lia)).
    rewrite E in IH. exact IH.
Qed.

Lemma loop_fetches (todo : list Z) :
  fetches_only symbol start_date end_date (snd (loop todo)).
Proof.
  induction todo as [|a todo IH]; [intros s x y []|].
  cbn [for_attempts].
  assert (fetches_only symbol start_date end_date (snd (body a))) as Hb.
  { destruct (body_cases a) as [[r [E _]] | [[df [_ [_ E]]] | [w [_ E]]]];
      rewrite E; cbn [snd]; intros s x y Hin; cbn [app In] in Hin.
    - destruct Hin as [H|[H|[]]]; [discriminate|].
      injection H as <- <- <-. auto.
    - destruct Hin as [H|[H|[H|[]]]]; try discriminate.
      injection H as <- <- <-. auto.
    - destruct Hin as [H|[H|Hin]]; [discriminate | |].
      + injection H as <- <- <-. auto.
      + exfalso. apply in_app_or in Hin as [Hin|[H|[]]]; [|discriminate].
        unfold wait_with_countdown in Hin.
        destruct (w <=? 0); [contradiction|].
        apply in_map_iff in Hin as [z [H _]]. discriminate. }
  destruct (body a) as [[r|] tr]; cbn [snd] in *; [exact Hb|].
  destruct (loop todo) as [r' tr']. cbn [snd] in *.
  intros s x y Hin. apply in_app_or in Hin as [Hin|Hin]; eauto.
Qed.

Lemma loop_row_count (todo : list Z) :
  if res_success (fst (loop todo)) then 1 <= res_row_count (fst (loop todo))
  else res_row_count (fst (loop todo)) = 0.
Proof.
  induction todo as [|a todo IH]; [reflexivity|].
  cbn [for_attempts].
  destruct (body_cases a) as [[r [E [Hs Hr]]] | [[df [_ [He E]]] | [w [_ E]]]];
    rewrite E; cbn [fst].
  - rewrite Hs. exact Hr.
  - cbn [res_success res_row_count fst snd].
    unfold df_empty in He. apply orb_false_iff in He as [He _].
    apply Nat.eqb_neq in He. lia.
  - destruct (loop todo) as [r' tr']. exact IH.
Qed.

(** A blind throttling error before the last attempt costs [15 * 2 ^ a]
    seconds. *)
Lemma body_blind (a : Z) :
  throttled_blind (world a) -> 0 <= a < max_retries - 1 ->
  fst (body a) = Continue /\ slept (snd (body a)) = 15 * 2 ^ a.
Proof.
  intros [e [He [Hr Hn]]] Ha. unfold loop_body.
  rewrite (StocksLoop.try_block_raises _ _ _ _ _ He).
  unfold except_block. rewrite Hr, Hn.
  destruct (Z.ltb_spec a (max_retries - 1)); [|lia].
  split; [reflexivity|]. cbn [snd].
  rewrite !slept_app, StocksLoop.wait_slept. simpl.
  pose proof (Z.pow_pos_nonneg 2 a). lia.
Qed.

Lemma slept_blind_prefix (n : Z) :
  0 <= n ->
  (forall a, 0 <= a < n -> slept (snd (body a)) = 15 * 2 ^ a) ->
  slept (flat_map (fun a => snd (body a)) (range n)) = 15 * (2 ^ n - 1).
Proof.
  intros Hn. pattern n. apply natlike_ind; [reflexivity | | exact Hn].
  intros x Hx IH H. unfold Z.succ. rewrite range_succ by exact Hx.
  rewrite flat_map_app, slept_app. cbn [flat_map]. rewrite app_nil_r.
  rewrite IH by (intros a Ha; apply H; lia).
  rewrite H by lia. rewrite Z.pow_add_r by lia. lia.
Qed.

End Loop.
End LoopExtras.

Section LoopTheorems.
Context `{U : PyUnicode}.

Lemma stocks_success_after_throttling (symbol start_date end_date : str)
      (max_retries : Z) (world : item_world) (a : Z) (df : DataFrame) :
  0 <= a < max_retries ->
  (forall b, 0 <= b < a -> throttled (world b)) ->
  history (world a) = HistoryReturns (Some df) ->
  df_empty df = false ->
  to_parquet (world a) = ParquetWritten ->
  fst (download_vn_stocks.download_symbol_data symbol start_date end_date
                                               max_retries world)
  = (symbol, true,
     u "OK: " ++ hd [] (df_index df) ++ u " -> " ++ List.last (df_index df) [],
     Z.of_nat (length (df_index df)))
  /\ attempts (snd (download_vn_stocks.download_symbol_data
                      symbol start_date end_date max_retries world))
     = (Z.to_nat a + 1)%nat
  /\ writes (snd (download_vn_stocks.download_symbol_data
                    symbol start_date end_date max_retries world))
     = [symbol ++ u ".parquet"].
Proof.
  intros Ha Hthr Hh He Hp.
  unfold download_vn_stocks.download_symbol_data.
  assert (download_vn_stocks.loop_body symbol start_date end_date max_retries
                                       world a
          = (Return (symbol, true,
                     u "OK: " ++ hd [] (df_index df) ++ u " -> "
                       ++ List.last (df_index df) [],
                     Z.of_nat (length (df_index df))),
             [EvGate; EvFetch symbol start_date end_date]
               ++ [EvWrite (download_vn_stocks.output_file symbol)])) as Hb.
  { unfold download_vn_stocks.loop_body, download_vn_stocks.try_block.
    rewrite Hh, He, Hp. reflexivity. }
  destruct (StocksLoop.loop_returns_at symbol start_date end_date max_retries
              world a _ _ Ha Hthr Hb) as [H1 [_ [H3 H4]]].
  rewrite H1, H3, H4. repeat split.
Qed.

Lemma stocks_blind_total (symbol start_date end_date : str)
      (max_retries : Z) (world : item_world) :
  1 <= max_retries ->
  (forall a, 0 <= a < max_retries -> throttled_blind (world a)) ->
  slept (snd (download_vn_stocks.download_symbol_data
                symbol start_date end_date max_retries world))
  = 15 * (2 ^ (max_retries - 1) - 1).
Proof.
  intros Hm Hall. unfold download_vn_stocks.download_symbol_data.
  assert (range max_retries = range (max_retries - 1) ++ [max_retries - 1])
    as -> by (rewrite <- range_succ by lia; f_equal; lia).
  rewrite StocksLoop.loop_continue_prefix.
  - destruct (StocksLoop.body_throttled_last symbol start_date end_date
                max_retries world (max_retries - 1)) as [msg Hlast]; [|lia|].
    { destruct (Hall (max_retries - 1) ltac:(lia)) as [e [H1 [H2 _]]].
      exists e. auto. }
    cbn [download_vn_stocks.for_attempts fst snd]. rewrite Hlast. cbn [snd].
    rewrite slept_app, LoopExtras.slept_blind_prefix;
      [change (slept [EvGate; EvFetch symbol start_date end_date]) with 0; lia
      | lia |].
    intros a Ha. apply LoopExtras.body_blind; [apply Hall; lia | lia].
  - intros a Ha. apply range_elem in Ha.
    apply LoopExtras.body_blind; [apply Hall; lia | lia].
Qed.

Lemma stocks_first_attempt (symbol start_date end_date : str)
      (max_retries : Z) (world : item_world) :
  0 < max_retries ->
  (1 <= attempts (snd (download_vn_stocks.download_symbol_data
                         symbol start_date end_date max_retries world)))%nat.
Proof.
  intros Hm. unfold download_vn_stocks.download_symbol_data.
  destruct (range_split max_retries 0 ltac:(lia)) as [rest ->].
  change (range 0 ++ 0 :: rest) with (0 :: rest).
  cbn [download_vn_stocks.for_attempts].
  pose proof (StocksLoop.body_attempts symbol start_date end_date max_retries
                world 0) as Hb.
  destruct (download_vn_stocks.loop_body symbol start_date end_date
              max_retries world 0) as [[r|] tr]; cbn [snd] in *; [lia|].
  destruct (download_vn_stocks.for_attempts symbol start_date end_date
              max_retries world rest) as [r' tr'].
  cbn [snd]. rewrite attempts_app. lia.
Qed.

Lemma stocks_well_formed (symbol start_date end_date : str)
      (max_retries : Z) (world : item_world) :
  well_formed (snd (download_vn_stocks.download_symbol_data
                      symbol start_date end_date max_retries world)) = true.
Proof.
  unfold download_vn_stocks.download_symbol_data, well_formed.
  destruct (Z.le_gt_cases max_retries 0) as [Hm|Hm].
  - unfold range. replace (Z.to_nat max_retries) with 0%nat by lia.
    reflexivity.
  - destruct (LoopExtras.loop_phase symbol start_date end_date max_retries
                world (Z.to_nat max_retries) 0 PStart
                (or_introl eq_refl) ltac:(lia) ltac:(lia) ltac:(lia))
      as [H|H]; unfold range; rewrite H; reflexivity.
Qed.

End LoopTheorems.

(** X1.  A run of the retry loop writes the output file of its symbol
    exactly when it reports success, writes it once and writes nothing
    else; the result always names the symbol it was called for. *)
Theorem artifact_iff_success `{U : PyUnicode}
        (symbol start_date end_date : str) (max_retries : Z)
        (world : item_world) :
  (res_symbol (fst (download_vn_stocks.download_symbol_data
                      symbol start_date end_date max_retries world)) = symbol
   /\ writes (snd (download_vn_stocks.download_symbol_data
                     symbol start_date end_date max_retries world))
      = if res_success (fst (download_vn_stocks.download_symbol_data
                               symbol start_date end_date max_retries world))
        then [symbol ++ u ".parquet"] else [])
  /\ (res_symbol (fst (download_vn30.download_vn30_data
                         start_date end_date max_retries world)) = u "VN30"
      /\ writes (snd (download_vn30.download_vn30_data
                        start_date end_date max_retries world))
         = if res_success (fst (download_vn30.download_vn30_data
                                  start_date end_date max_retries world))
           then [u "VN30.parquet"] else []).
Proof.
  rewrite vn30_data. unfold download_vn_stocks.download_symbol_data.
  split; apply StocksLoop.loop_result.
Qed.

(** X2.  When the attempts before attempt [a] are throttled and attempt [a]
    fetches a table with rows that is then written, the run reports success
    with the message "OK: first -> last" built from the first and last
    index labels and the number of rows as row count, after [a + 1]
    attempts, and the symbol's file is the one file written. *)
Theorem success_after_throttling `{U : PyUnicode}
        (symbol start_date end_date : str) (max_retries : Z)
        (world : item_world) (a : Z) (df : DataFrame) :
  0 <= a < max_retries ->
  (forall b, 0 <= b < a -> throttled (world b)) ->
  history (world a) = HistoryReturns (Some df) ->
  df_empty df = false ->
  to_parquet (world a) = ParquetWritten ->
  (fst (download_vn_stocks.download_symbol_data symbol start_date end_date
                                                max_retries world)
   = (symbol, true,
      u "OK: " ++ hd [] (df_index df) ++ u " -> " ++ List.last (df_index df) [],
      Z.of_nat (length (df_index df)))
   /\ attempts (snd (download_vn_stocks.download_symbol_data
                       symbol start_date end_date max_retries world))
      = (Z.to_nat a + 1)%nat
   /\ writes (snd (download_vn_stocks.download_symbol_data
                     symbol start_date end_date max_retries world))
      = [symbol ++ u ".parquet"])
  /\ (fst (download_vn30.download_vn30_data start_date end_date max_retries
                                            world)
      = (u "VN30", true,
         u "OK: " ++ hd [] (df_index df) ++ u " -> "
           ++ List.last (df_index df) [],
         Z.of_nat (length (df_index df)))
      /\ attempts (snd (download_vn30.download_vn30_data
                          start_date end_date max_retries world))
         = (Z.to_nat a + 1)%nat
      /\ writes (snd (download_vn30.download_vn30_data
                        start_date end_date max_retries world))
         = [u "VN30.parquet"]).
Proof.
  intros Ha Hthr Hh He Hp. rewrite vn30_data.
  split; apply stocks_success_after_throttling; assumption.
Qed.

Lemma once_then_sample (b : Z) :
  0 <= b < 1 ->
  throttled (U := fragment)
            (once_then (u "Rate limit. Vui lòng thử lại sau 10 giây")
                       (rows [u "2024-01-02"; u "2024-05-31"]) b).
Proof.
  intros H. assert (b = 0) as -> by lia.
  exists (u "Rate limit. Vui lòng thử lại sau 10 giây"). split; reflexivity.
Defined.

Lemma success_after_throttling_witness :
  0 <= 1 < 5
  /\ fst (download_vn_stocks.download_symbol_data (U := fragment)
            (u "ABC") (u "2024-01-01") (u "2024-06-01") 5
            (once_then (u "Rate limit. Vui lòng thử lại sau 10 giây")
                       (rows [u "2024-01-02"; u "2024-05-31"])))
     = (u "ABC", true, u "OK: 2024-01-02 -> 2024-05-31", 2)
  /\ attempts (snd (download_vn_stocks.download_symbol_data (U := fragment)
                      (u "ABC") (u "2024-01-01") (u "2024-06-01") 5
                      (once_then (u "Rate limit. Vui lòng thử lại sau 10 giây")
                                 (rows [u "2024-01-02"; u "2024-05-31"]))))
     = 2%nat.
Proof.
  split; [lia|].
  destruct (success_after_throttling (U := fragment)
              (u "ABC") (u "2024-01-01") (u "2024-06-01") 5
              (once_then (u "Rate limit. Vui lòng thử lại sau 10 giây")
                         (rows [u "2024-01-02"; u "2024-05-31"]))
              1 (rows [u "2024-01-02"; u "2024-05-31"])
              ltac:(lia) once_then_sample eq_refl eq_refl eq_refl)
    as [[H1 [H2 _]] _].
  split; [exact H1 | exact H2].
Defined.

(** X3.  A result that reports success carries a row count of at least 1;
    a result that reports failure carries the row count 0. *)
Theorem row_count_matches_status `{U : PyUnicode}
        (symbol start_date end_date : str) (max_retries : Z)
        (world : item_world) :
  (if res_success (fst (download_vn_stocks.download_symbol_data
                          symbol start_date end_date max_retries world))
   then 1 <= res_row_count (fst (download_vn_stocks.download_symbol_data
                                   symbol start_date end_date max_retries
                                   world))
   else res_row_count (fst (download_vn_stocks.download_symbol_data
                              symbol start_date end_date max_retries world))
        = 0)
  /\ (if res_success (fst (download_vn30.download_vn30_data
                             start_date end_date max_retries world))
      then 1 <= res_row_count (fst (download_vn30.download_vn30_data
                                      start_date end_date max_retries world))
      else res_row_count (fst (download_vn30.download_vn30_data
                                 start_date end_date max_retries world)) = 0).
Proof.
  rewrite vn30_data. unfold download_vn_stocks.download_symbol_data.
  split; apply LoopExtras.loop_row_count.
Qed.

(** X4.  With [max_retries <= 0] the loop body never runs: no gate, no
    fetch, and the result is the failure "Failed after <max_retries>
    attempts".  With [max_retries >= 1] at least one fetch is made. *)
Theorem attempts_need_budget `{U : PyUnicode}
        (symbol start_date end_date : str) (max_retries : Z)
        (world : item_world) :
  (max_retries <= 0 ->
   download_vn_stocks.download_symbol_data symbol start_date end_date
                                           max_retries world
   = ((symbol, false,
       u "Failed after " ++ str_of_int max_retries ++ u " attempts", 0), [])
   /\ download_vn30.download_vn30_data start_date end_date max_retries world
      = ((u "VN30", false,
          u "Failed after " ++ str_of_int max_retries ++ u " attempts", 0), []))
  /\ (0 < max_retries ->
      (1 <= attempts (snd (download_vn_stocks.download_symbol_data
                             symbol start_date end_date max_retries world)))%nat
      /\ (1 <= attempts (snd (download_vn30.download_vn30_data
                                start_date end_date max_retries world)))%nat).
Proof.
  rewrite vn30_data. split.
  - intros Hm. unfold download_vn_stocks.download_symbol_data, range.
    replace (Z.to_nat max_retries) with 0%nat by lia. split; reflexivity.
  - intros Hm. split; apply stocks_first_attempt; exact Hm.
Qed.

(** X5.  In every run each fetch comes right after a passage of the rate
    gate and is a request for the Work Item of the run; a countdown only
    follows a fetch, is closed by a stamp and is followed by another
    attempt; the write of the output file, if there is one, is the last
    event. *)
Theorem trace_is_well_formed `{U : PyUnicode}
        (symbol start_date end_date : str) (max_retries : Z)
        (world : item_world) :
  (well_formed (snd (download_vn_stocks.download_symbol_data
                       symbol start_date end_date max_retries world)) = true
   /\ fetches_only symbol start_date end_date
                   (snd (download_vn_stocks.download_symbol_data
                           symbol start_date end_date max_retries world)))
  /\ (well_formed (snd (download_vn30.download_vn30_data
                          start_date end_date max_retries world)) = true
      /\ fetches_only (u "VN30") start_date end_date
                      (snd (download_vn30.download_vn30_data
                              start_date end_date max_retries world))).
Proof.
  rewrite vn30_data.
  split; (split; [apply stocks_well_formed | apply LoopExtras.loop_fetches]).
Qed.

(** X6.  When every attempt raises a throttling error without a wait hint
    and [max_retries >= 1], the run spends
    [15 * (2 ^ (max_retries - 1) - 1)] seconds in countdowns: 225 seconds
    for the default of 5 attempts. *)
Theorem blind_backoff_total `{U : PyUnicode}
        (symbol start_date end_date : str) (max_retries : Z)
        (world : item_world) :
  1 <= max_retries ->
  (forall a, 0 <= a < max_retries -> throttled_blind (world a)) ->
  slept (snd (download_vn_stocks.download_symbol_data
                symbol start_date end_date max_retries world))
  = 15 * (2 ^ (max_retries - 1) - 1)
  /\ slept (snd (download_vn30.download_vn30_data
                   start_date end_date max_retries world))
     = 15 * (2 ^ (max_retries - 1) - 1).
Proof.
  intros Hm Hall. rewrite vn30_data.
  split; apply stocks_blind_total; assumption.
Qed.

Lemma always_blind_sample (a : Z) :
  throttled_blind (U := fragment) (always (raising (u "Rate limit exceeded")) a).
Proof.
  exists (u "Rate limit exceeded"). repeat split; reflexivity.
Defined.

Lemma blind_backoff_total_witness :
  1 <= 5
  /\ slept (snd (download_vn_stocks.download_symbol_data (U := fragment)
                   (u "ABC") (u "2024-01-01") (u "2024-06-01") 5
                   (always (raising (u "Rate limit exceeded")))))
     = 15 * (2 ^ (5 - 1) - 1).
Proof.
  split; [lia|].
  exact (proj1 (blind_backoff_total (U := fragment)
                  (u "ABC") (u "2024-01-01") (u "2024-06-01") 5
                  (always (raising (u "Rate limit exceeded")))
                  ltac:(lia) (fun a _ => always_blind_sample a))).
Defined.

(** ** The matcher: what a match looks like *)

Section ReExtras.
Context `{U : PyUnicode}.

Lemma greedy_split (t : N -> bool) (k : str -> str -> option str)
      (s taken r : str) :
  greedy t k taken s = Some r ->
  exists xs rest,
    s = xs ++ rest /\ Forall (fun c => t c = true) xs
    /\ k (taken ++ xs) rest = Some r.
Proof.
  revert taken. induction s as [|c s IH]; intros taken; cbn [greedy].
  - intros H. exists [], [].
    repeat split; [constructor | rewrite app_nil_r; exact H].
  - destruct (t c) eqn:Hc.
    + destruct (greedy t k (taken ++ [c]) s) eqn:G.
      * intros [= <-]. apply IH in G as [xs [rest [-> [Hxs Hk]]]].
        exists (c :: xs), rest. rewrite <- app_assoc in Hk.
        repeat split; auto.
      * intros H. exists [], (c :: s).
        repeat split; [constructor | rewrite app_nil_r; exact H].
    + intros H. exists [], (c :: s).
      repeat split; [constructor | rewrite app_nil_r; exact H].
Qed.

Lemma plus_split (t : N -> bool) (k : str -> str -> option str) (s r : str) :
  plus t k s = Some r ->
  exists xs rest,
    s = xs ++ rest /\ xs <> [] /\ Forall (fun c => t c = true) xs
    /\ k xs rest = Some r.
Proof.
  destruct s as [|c s]; cbn [plus]; [discriminate|].
  destruct (t c) eqn:Hc; [|discriminate].
  intros H. apply greedy_split in H as [xs [rest [-> [Hxs Hk]]]].
  exists (c :: xs), rest. repeat split; auto; try discriminate.
Qed.

Lemma match_lit_inv (w : str) (p : pattern) (g s r : str) :
  match_here (lit w ++ p) g s = Some r ->
  exists word rest,
    s = word ++ rest /\ ci_word w word /\ match_here p g rest = Some r.
Proof.
  revert s. induction w as [|c w IH]; intros s.
  - intros H. exists [], s. repeat split; [constructor | exact H].
  - cbn [lit map app match_here]. destruct s as [|x s]; [discriminate|].
    destruct (re_ci_eq c x) eqn:Hc; [|discriminate].
    intros H. apply IH in H as [word [rest [-> [Hw H]]]].
    exists (x :: word), rest. repeat split; [constructor; assumption | exact H].
Qed.

Lemma search_split (p : pattern) (s g : str) :
  search p s = Some g ->
  exists pre s', s = pre ++ s' /\ match_here p [] s' = Some g.
Proof.
  induction s as [|c s IH]; cbn [search].
  - destruct (match_here p [] []) eqn:E; [|discriminate].
    intros [= <-]. exists [], []. auto.
  - destruct (match_here p [] (c :: s)) eqn:E.
    + intros [= <-]. exists [], (c :: s). auto.
    + intros H. apply IH in H as [pre [s' [-> H]]].
      exists (c :: pre), s'. auto.
Qed.

(** A match of "digits, blanks, word" starts with the digits of group 1. *)
Lemma bare_match_shape (w g0 s g : str) :
  match_here ([Plus ClsDigit true; Plus ClsSpace false] ++ lit w) g0 s
  = Some g ->
  exists spaces word post,
    s = g ++ spaces ++ word ++ post
    /\ g <> [] /\ Forall (fun c => re_isdigit c = true) g
    /\ spaces <> [] /\ Forall (fun c => re_isspace c = true) spaces
    /\ ci_word w word.
Proof.
  cbn [app match_here]. intros H.
  apply plus_split in H as [digits [rest [-> [Hd [Hds H]]]]].
  cbn [match_here] in H.
  apply plus_split in H as [spaces [rest' [-> [Hs [Hss H]]]]].
  rewrite <- (app_nil_r (lit w)) in H.
  apply match_lit_inv in H as [word [post [-> [Hw H]]]].
  cbn [match_here] in H. injection H as <-.
  exists spaces, word, post. repeat split; auto.
Qed.

(** So does, after its first word and blanks, a match of "word, blanks,
    digits, blanks, word". *)
Lemma hint_match_shape (w1 w2 s g : str) :
  match_here
    (lit w1 ++ [Plus ClsSpace false; Plus ClsDigit true; Plus ClsSpace false]
       ++ lit w2) [] s = Some g ->
  exists before spaces word post,
    s = before ++ g ++ spaces ++ word ++ post
    /\ g <> [] /\ Forall (fun c => re_isdigit c = true) g
    /\ spaces <> [] /\ Forall (fun c => re_isspace c = true) spaces
    /\ ci_word w2 word.
Proof.
  intros H. apply match_lit_inv in H as [word1 [rest [-> [_ H]]]].
  cbn [app match_here] in H.
  apply plus_split in H as [sp1 [rest' [-> [_ [_ H]]]]].
  apply (bare_match_shape w2 [] rest' g) in H
    as [spaces [word [post [-> Hrest]]]].
  exists (word1 ++ sp1), spaces, word, post.
  rewrite <- app_assoc. split; [reflexivity | exact Hrest].
Qed.

Lemma found_hint_shape (error_msg : str) (n : Z) :
  download_vn_stocks.extract_wait_time error_msg = Some n ->
  exists digits, bare_hint error_msg digits /\ n = py_int digits.
Proof.
  unfold download_vn_stocks.extract_wait_time. rewrite first_match_some.
  intros [i [p [g [Hi [Hs [-> _]]]]]].
  apply search_split in Hs as [pre [s [-> Hm]]].
  exists g. split; [|reflexivity].
  rewrite stocks_patterns in Hi.
  destruct i as [|[|[|[|i]]]]; cbn [nth_error] in Hi;
    try (destruct i; discriminate); injection Hi as <-.
  - apply (hint_match_shape (u "sau") (u "giây")) in Hm
      as [before [spaces [word [post [-> [H1 [H2 [H3 [H4 H5]]]]]]]]].
    exists (pre ++ before), spaces, word, post.
    rewrite <- app_assoc. repeat split; auto.
  - apply (hint_match_shape (u "after") (u "seconds")) in Hm
      as [before [spaces [word [post [-> [H1 [H2 [H3 [H4 H5]]]]]]]]].
    exists (pre ++ before), spaces, word, post.
    rewrite <- app_assoc. repeat split; auto.
  - apply (bare_match_shape (u "giây")) in Hm
      as [spaces [word [post [-> [H1 [H2 [H3 [H4 H5]]]]]]]].
    exists pre, spaces, word, post. repeat split; auto.
  - apply (bare_match_shape (u "seconds")) in Hm
      as [spaces [word [post [-> [H1 [H2 [H3 [H4 H5]]]]]]]].
    exists pre, spaces, word, post. repeat split; auto.
Qed.

Lemma shape_gives_hint (error_msg digits : str) :
  bare_hint error_msg digits ->
  exists n, download_vn_stocks.extract_wait_time error_msg = Some n.
Proof.
  intros [pre [spaces [word [post [-> [Hd [Hds [Hs [Hss Hw]]]]]]]]].
  destruct (download_vn_stocks.extract_wait_time
              (pre ++ digits ++ spaces ++ word ++ post)) as [n|] eqn:E;
    [eauto|].
  exfalso. unfold download_vn_stocks.extract_wait_time in E.
  rewrite first_match_none in E.
  destruct Hw as [Hw|Hw].
  - apply (search_complete pattern_giay pre
             (digits ++ spaces ++ word ++ post)).
    + apply bare_hint_matches; assumption.
    + apply E. rewrite stocks_patterns. cbn [In]. auto.
  - apply (search_complete pattern_seconds pre
             (digits ++ spaces ++ word ++ post)).
    + apply bare_hint_matches; assumption.
    + apply E. rewrite stocks_patterns. cbn [In]. auto.
Qed.

End ReExtras.


(** ** The batch driver: artifacts and the work list *)

Section BatchExtras.
Context `{U : PyUnicode}.

Lemma empty_never_existing (dir : directory) :
  [] ∉ download_vn_stocks.existing_files dir.
Proof.
  unfold download_vn_stocks.existing_files, glob_parquet.
  rewrite elem_of_map. intros [name [Hs Hn]].
  apply elem_of_filter in Hn as [He _].
  apply endswith_spec in He as [x ->].
  destruct x as [|a x].
  - change (stem ([] ++ u ".parquet")) with (u ".parquet") in Hs.
    discriminate.
  - rewrite stem_parquet in Hs by discriminate. discriminate.
Qed.

Lemma files_written_spec (start_date end_date : str) (symbols : list str)
      (dir : directory) (world : str -> item_world) (f : str) :
  In f (files_written
          (download_vn_stocks.download_all_symbols start_date end_date
                                                   symbols dir world))
  <-> exists s,
      In s (download_vn_stocks.symbols_to_download symbols dir)
      /\ succeeds start_date end_date world s = true
      /\ f = s ++ u ".parquet".
Proof.
  pose proof (written_spec start_date end_date world) as Hw.
  unfold succeeds, run_item in *.
  unfold download_vn_stocks.download_all_symbols.
  destruct symbols as [|s0 symbols].
  - cbn [files_written In]. split; [contradiction|].
    intros [s [[] _]].
  - destruct (download_vn_stocks.symbols_to_download (s0 :: symbols) dir)
      as [|t0 todo] eqn:E.
    + cbn [files_written In]. split; [contradiction|].
      intros [s [[] _]].
    + cbn [files_written download_vn_stocks.written]. apply Hw.
Qed.

End BatchExtras.




(** ** The driver's bookkeeping *)

Module DriverFacts.
Import batch_results.
Section Facts.
Context `{U : PyUnicode}.
Variables (start_date end_date unbound_local_error : str)
          (retry_world : str -> item_world).

Local Abbreviation on_exception :=
  (batch_results.on_exception start_date end_date retry_world).
Local Abbreviation on_future :=
  (batch_results.on_future start_date end_date unbound_local_error retry_world).
Local Abbreviation as_completed :=
  (batch_results.as_completed start_date end_date unbound_local_error
                              retry_world).

Lemma count_success_snoc (rs : list result) (r : result) :
  count_success (rs ++ [r])
  = count_success rs + (if res_success r then 1 else 0).
Proof.
  unfold count_success. rewrite List.filter_app, length_app. cbn [List.filter].
  destruct (res_success r); cbn [length]; lia.
Qed.

Lemma count_failed_snoc (rs : list result) (r : result) :
  count_failed (rs ++ [r])
  = count_failed rs + (if res_success r then 0 else 1).
Proof.
  unfold count_failed. rewrite List.filter_app, length_app. cbn [List.filter].
  destruct (res_success r); cbn [negb length]; lia.
Qed.

Lemma count_partition (rs : list result) :
  Z.of_nat (length rs) = count_success rs + count_failed rs.
Proof.
  unfold count_success, count_failed.
  induction rs as [|r rs IH]; [reflexivity|].
  cbn [List.filter length]. destruct (res_success r); cbn [negb length]; lia.
Qed.

Lemma rows_snoc (rs : list result) (r : result) :
  rows_of_successes (rs ++ [r])
  = rows_of_successes rs + (if res_success r then res_row_count r else 0).
Proof.
  unfold rows_of_successes. induction rs as [|x rs IH].
  - cbn [app fold_right]. destruct (res_success r); lia.
  - cbn [app fold_right]. rewrite IH. destruct (res_success x); lia.
Qed.

Lemma agrees_on_exception (symbol e : str) (st : tally) :
  agrees st -> agrees (on_exception symbol e st).
Proof.
  intros [Hs [Hf Hr]]. unfold batch_results.on_exception, agrees.
  destruct (download_vn_stocks.is_rate_limit e).
  - destruct (download_vn_stocks.download_symbol_data
                symbol start_date end_date 5 (retry_world symbol))
      as [[[[s ok] m] n] tr].
    cbn [results success_count fail_count total_rows].
    rewrite count_success_snoc, count_failed_snoc, rows_snoc.
    cbn [res_success res_row_count fst snd].
    destruct ok; lia.
  - cbn [results success_count fail_count total_rows].
    rewrite count_success_snoc, count_failed_snoc, rows_snoc.
    cbn [res_success res_row_count fst snd]. lia.
Qed.

Lemma agrees_on_future (symbol : str) (fut : outcome result) (st st' : tally) :
  agrees st -> on_future symbol fut st = Returns st' -> agrees st'.
Proof.
  intros [Hs [Hf Hr]]. unfold batch_results.on_future.
  destruct fut as [[[[s ok] m] n]|[| |e]]; try discriminate.
  - cbn [last_request_bound results success_count fail_count total_rows].
    assert (agrees {| results := results st ++ [(s, ok, m, n)];
                      success_count := if ok then success_count st + 1
                                       else success_count st;
                      fail_count := if ok then fail_count st
                                    else fail_count st + 1;
                      total_rows := if ok then total_rows st + n
                                    else total_rows st;
                      last_request_bound := last_request_bound st;
                      log := log st |}) as H1.
    { unfold agrees. cbn [results success_count fail_count total_rows].
      rewrite count_success_snoc, count_failed_snoc, rows_snoc.
      cbn [res_success res_row_count fst snd]. destruct ok; lia. }
    destruct (last_request_bound st).
    + intros [= <-]. exact H1.
    + intros [= <-]. apply agrees_on_exception. exact H1.
  - intros [= <-]. apply agrees_on_exception. split; auto.
Qed.

Lemma agrees_as_completed (completed : list (str * outcome result))
      (st st' : tally) :
  agrees st -> as_completed completed st = Returns st' -> agrees st'.
Proof.
  revert st. induction completed as [|[symbol fut] rest IH]; intros st Ha.
  - intros [= <-]. exact Ha.
  - cbn [batch_results.as_completed].
    destruct (on_future symbol fut st) as [st1|x] eqn:E; [|discriminate].
    apply IH. apply (agrees_on_future symbol fut st st1 Ha E).
Qed.

(** While the local has no value and the text of its error is not a
    throttling text, a call that returns leaves two records. *)
Lemma doubled_step (r : result) (st : tally) :
  download_vn_stocks.is_rate_limit unbound_local_error = false ->
  last_request_bound st = false ->
  exists st',
    on_future (res_symbol r) (Returns r) st = Returns st'
    /\ results st' = results st ++ doubled unbound_local_error r
    /\ last_request_bound st' = false
    /\ log st' = log st.
Proof.
  intros Hu Hb. destruct r as [[[s ok] m] n].
  unfold batch_results.on_future.
  cbn [last_request_bound]. rewrite Hb.
  unfold batch_results.on_exception. rewrite Hu.
  eexists. split; [reflexivity|].
  cbn [results last_request_bound log]. rewrite <- app_assoc.
  repeat split; auto.
Qed.

Lemma doubled_run (rs : list result) (st : tally) :
  download_vn_stocks.is_rate_limit unbound_local_error = false ->
  last_request_bound st = false ->
  exists st',
    as_completed (returned rs) st = Returns st'
    /\ results st'
       = results st ++ flat_map (doubled unbound_local_error) rs
    /\ last_request_bound st' = false
    /\ log st' = log st.
Proof.
  intros Hu. revert st. induction rs as [|r rs IH]; intros st Hb.
  - exists st. rewrite app_nil_r. auto.
  - destruct (doubled_step r st Hu Hb) as [st1 [E [H1 [H2 H3]]]].
    destruct (IH st1 H2) as [st' [E' [H1' [H2' H3']]]].
    exists st'. cbn [returned map batch_results.as_completed].
    rewrite E. split; [exact E'|].
    rewrite H1', H1, <- app_assoc. cbn [flat_map].
    repeat split; [exact H2' | congruence].
Qed.

Lemma doubled_counts (rs : list result) :
  count_success (flat_map (doubled unbound_local_error) rs) = count_success rs
  /\ count_failed (flat_map (doubled unbound_local_error) rs)
     = Z.of_nat (length rs) + count_failed rs.
Proof.
  unfold count_success, count_failed.
  induction rs as [|r rs [IH1 IH2]]; [split; reflexivity|].
  cbn [flat_map doubled app List.filter length res_success fst snd negb].
  destruct (res_success r); cbn [negb length]; split; lia.
Qed.

End Facts.
End DriverFacts.

(** X10.  Whatever the futures do, when the loop over the completed
    futures ends the counters printed in the summary agree with the records
    kept for the manifest: [success_count] is the number of SUCCESS records,
    [fail_count] the number of FAILED records, [total_rows] the sum of the
    row counts of the SUCCESS records; the manifest has one row per record
    and failed.csv one line per FAILED record. *)
Theorem tally_matches_records `{U : PyUnicode}
        (start_date end_date unbound_local_error : str)
        (retry_world : str -> item_world)
        (completed : list (str * outcome result)) (st : batch_results.tally) :
  batch_results.as_completed start_date end_date unbound_local_error
                             retry_world completed batch_results.start
  = Returns st ->
  agrees st
  /\ Z.of_nat (length (batch_results.manifest_data (batch_results.results st)))
     = batch_results.success_count st + batch_results.fail_count st
  /\ Z.of_nat (length (batch_results.failed_symbols
                         (batch_results.results st)))
     = batch_results.fail_count st.
Proof.
  intros H.
  assert (agrees st) as Ha.
  { apply (DriverFacts.agrees_as_completed start_date end_date
             unbound_local_error retry_world completed batch_results.start st);
      [|exact H].
    repeat split. }
  split; [exact Ha|]. destruct Ha as [Hs [Hf _]].
  unfold batch_results.manifest_data, batch_results.failed_symbols.
  rewrite !length_map, Hs, Hf.
  split; [apply DriverFacts.count_partition | reflexivity].
Qed.

Lemma tally_matches_records_witness :
  exists st,
    batch_results.as_completed (U := fragment) (u "1990-01-01")
      (u "2024-06-01") unbound_local_message provider_with_data
      (returned [(u "AAA", true, u "OK", 3); (u "BBB", false, u "x", 0)])
      batch_results.start = Returns st
    /\ agrees st
    /\ batch_results.fail_count st = 3.
Proof.
  destruct (batch_results.as_completed (U := fragment) (u "1990-01-01")
              (u "2024-06-01") unbound_local_message provider_with_data
              (returned [(u "AAA", true, u "OK", 3); (u "BBB", false, u "x", 0)])
              batch_results.start) as [st|x] eqn:E;
    [|vm_compute in E; discriminate].
  exists st. split; [reflexivity|].
  split; [exact (proj1 (tally_matches_records (U := fragment) _ _ _ _ _ st E))|].
  vm_compute in E. injection E as <-. reflexivity.
Defined.

(** X11.  In [download_all_symbols] the name [last_request_time] is a
    local, and nothing gives it a value before the pause between items
    reads it.  So, when every call returns and the text of the resulting
    [UnboundLocalError] is not a throttling text, each item leaves two
    records - the result of its call and a FAILED record carrying that
    text - the pause between items never happens, and [fail_count] is the
    number of items plus the number of failed calls. *)
Theorem unassigned_local_doubles_records `{U : PyUnicode}
        (start_date end_date unbound_local_error : str)
        (retry_world : str -> item_world) (rs : list result) :
  download_vn_stocks.is_rate_limit unbound_local_error = false ->
  exists st,
    batch_results.as_completed start_date end_date unbound_local_error
                               retry_world (returned rs) batch_results.start
    = Returns st
    /\ batch_results.results st = flat_map (doubled unbound_local_error) rs
    /\ batch_results.log st = []
    /\ batch_results.success_count st = count_success rs
    /\ batch_results.fail_count st = Z.of_nat (length rs) + count_failed rs.
Proof.
  intros Hu.
  destruct (DriverFacts.doubled_run start_date end_date unbound_local_error
              retry_world rs batch_results.start Hu eq_refl)
    as [st [E [H1 [_ H3]]]].
  exists st. split; [exact E|]. cbn [batch_results.results batch_results.start
                                     batch_results.log app] in H1, H3.
  split; [exact H1|]. split; [exact H3|].
  destruct (DriverFacts.agrees_as_completed start_date end_date
              unbound_local_error retry_world (returned rs)
              batch_results.start st ltac:(repeat split) E) as [Hs [Hf _]].
  rewrite Hs, Hf, H1. apply DriverFacts.doubled_counts.
Qed.

Lemma unassigned_local_doubles_records_witness :
  download_vn_stocks.is_rate_limit (U := fragment) unbound_local_message = false
  /\ exists st,
      batch_results.as_completed (U := fragment) (u "1990-01-01")
        (u "2024-06-01") unbound_local_message provider_with_data
        (returned [(u "AAA", true, u "OK", 3)]) batch_results.start
      = Returns st
      /\ batch_results.results st
         = [(u "AAA", true, u "OK", 3);
            (u "AAA", false, unbound_local_message, 0)].
Proof.
  split; [reflexivity|].
  destruct (unassigned_local_doubles_records (U := fragment)
              (u "1990-01-01") (u "2024-06-01") unbound_local_message
              provider_with_data [(u "AAA", true, u "OK", 3)] eq_refl)
    as [st [E [H _]]].
  exists st. split; [exact E | exact H].
Defined.



(** ** The symbol source *)

Module SymbolFacts.
Import symbol_source.

Lemma str_leb_refl (a : str) : str_leb a a = true.
Proof.
  induction a as [|x a IH]; [reflexivity|].
  cbn [str_leb]. rewrite N.ltb_irrefl, N.eqb_refl. exact IH.
Qed.

Lemma str_leb_total (a b : str) : str_leb a b = true \/ str_leb b a = true.
Proof.
  revert b. induction a as [|x a IH]; intros b; [left; reflexivity|].
  destruct b as [|y b]; [right; reflexivity|].
  cbn [str_leb].
  destruct (N.ltb_spec x y); [left; reflexivity|].
  destruct (N.ltb_spec y x); [right; reflexivity|].
  assert (x = y) as -> by lia. rewrite N.eqb_refl. apply IH.
Qed.

Lemma str_leb_trans (a b c : str) :
  str_leb a b = true -> str_leb b c = true -> str_leb a c = true.
Proof.
  revert b c. induction a as [|x a IH]; intros b c; [reflexivity|].
  destruct b as [|y b]; [discriminate|].
  destruct c as [|z c].
  - intros _ H. cbn [str_leb] in H. discriminate.
  - cbn [str_leb]. destruct (N.ltb_spec x y) as [Hxy|Hxy].
    + intros _. destruct (N.ltb_spec y z) as [Hyz|Hyz].
      * intros _. destruct (N.ltb_spec x z); [reflexivity | lia].
      * destruct (N.eqb_spec y z) as [->|]; [|discriminate]. intros _.
        destruct (N.ltb_spec x z); [reflexivity | lia].
    + destruct (N.eqb_spec x y) as [->|]; [|discriminate]. intros Hab.
      destruct (N.ltb_spec y z) as [Hyz|Hyz]; [reflexivity|].
      destruct (N.eqb_spec y z) as [->|]; [|discriminate]. intros Hbc.
      apply (IH b c Hab Hbc).
Qed.

Lemma str_leb_antisym (a b : str) :
  str_leb a b = true -> str_leb b a = true -> a = b.
Proof.
  revert b. induction a as [|x a IH]; intros b.
  - destruct b; [reflexivity | discriminate].
  - destruct b as [|y b]; [discriminate|]. cbn [str_leb].
    destruct (N.ltb_spec x y) as [Hxy|Hxy].
    + intros _. destruct (N.ltb_spec y x); [lia|].
      destruct (N.eqb_spec y x); [lia | discriminate].
    + destruct (N.eqb_spec x y) as [->|]; [|discriminate].
      rewrite N.ltb_irrefl, N.eqb_refl.
      intros H1 H2. f_equal. apply IH; assumption.
Qed.

Lemma in_insert_sorted (x y : str) (l : list str) :
  In y (insert_sorted x l) <-> y = x \/ In y l.
Proof.
  induction l as [|z l IH]; cbn [insert_sorted In].
  - split; [intros [->|[]]; auto | intros [->|[]]; auto].
  - destruct (str_leb x z); cbn [In]; [intuition congruence|].
    rewrite IH. intuition congruence.
Qed.

Lemma insert_sorted_sorted (x : str) (l : list str) :
  StronglySorted str_le l -> StronglySorted str_le (insert_sorted x l).
Proof.
  induction l as [|z l IH]; intros Hl; cbn [insert_sorted].
  - constructor; constructor.
  - inversion Hl as [|? ? Hl' Hz]; subst.
    destruct (str_leb x z) eqn:E.
    + constructor; [exact Hl|]. constructor; [exact E|].
      apply List.Forall_forall. intros y Hy.
      rewrite List.Forall_forall in Hz.
      apply (str_leb_trans x z y E (Hz y Hy)).
    + constructor; [apply IH; exact Hl'|].
      apply List.Forall_forall. intros y Hy.
      apply in_insert_sorted in Hy as [->|Hy].
      * destruct (str_leb_total x z) as [H|H]; [congruence | exact H].
      * rewrite List.Forall_forall in Hz. apply (Hz y Hy).
Qed.

Lemma insert_sorted_nodup (x : str) (l : list str) :
  ~ In x l -> List.NoDup l -> List.NoDup (insert_sorted x l).
Proof.
  induction l as [|z l IH]; intros Hx Hl; cbn [insert_sorted].
  - constructor; [intros [] | constructor].
  - destruct (str_leb x z); [constructor; assumption|].
    inversion Hl as [|? ? Hz Hl']; subst. constructor.
    + rewrite in_insert_sorted. intros [->|H]; [|contradiction].
      apply Hx. left. reflexivity.
    + apply IH; [|exact Hl']. intros H. apply Hx. right. exact H.
Qed.

Lemma in_sorted (y : str) (l : list str) : In y (sorted l) <-> In y l.
Proof.
  unfold sorted. induction l as [|x l IH]; [reflexivity|].
  cbn [fold_right In]. rewrite in_insert_sorted, IH. intuition congruence.
Qed.

Lemma sorted_is_sorted (l : list str) : StronglySorted str_le (sorted l).
Proof.
  unfold sorted. induction l as [|x l IH]; [constructor|].
  cbn [fold_right]. apply insert_sorted_sorted. exact IH.
Qed.

Lemma sorted_nodup (l : list str) : List.NoDup l -> List.NoDup (sorted l).
Proof.
  unfold sorted. induction l as [|x l IH]; intros H; [constructor|].
  inversion H as [|? ? Hx Hl]; subst. cbn [fold_right].
  apply insert_sorted_nodup; [|apply IH; exact Hl].
  intros Hin. apply Hx. apply (in_sorted x l). exact Hin.
Qed.

Lemma in_unique (y : str) (l : list str) : In y (unique l) <-> In y l.
Proof.
  induction l as [|x l IH]; [reflexivity|].
  cbn [unique In]. rewrite List.filter_In, IH.
  destruct (decide (y = x)) as [->|Hne].
  - intuition.
  - rewrite bool_decide_eq_false_2 by exact Hne. cbn [negb].
    intuition congruence.
Qed.

Lemma unique_nodup (l : list str) : List.NoDup (unique l).
Proof.
  induction l as [|x l IH]; [constructor|].
  cbn [unique]. constructor.
  - rewrite List.filter_In. intros [_ H].
    rewrite bool_decide_eq_true_2 in H by reflexivity. discriminate.
  - apply List.NoDup_filter. exact IH.
Qed.

Lemma in_dropna (s : str) (cells : list (option str)) :
  In s (dropna cells) <-> In (Some s) cells.
Proof.
  unfold dropna. rewrite in_flat_map. split.
  - intros [[x|] [Hc Hs]]; [|contradiction].
    destruct Hs as [->|[]]. exact Hc.
  - intros H. exists (Some s). split; [exact H | left; reflexivity].
Qed.

Lemma column_symbols (cells : list (option str)) :
  StronglySorted str_le (sorted (unique (dropna cells)))
  /\ List.NoDup (sorted (unique (dropna cells)))
  /\ forall s, In s (sorted (unique (dropna cells))) <-> In (Some s) cells.
Proof.
  split; [apply sorted_is_sorted|].
  split; [apply sorted_nodup, unique_nodup|].
  intros s. rewrite in_sorted, in_unique, in_dropna. reflexivity.
Qed.

End SymbolFacts.

(** X13.  [get_all_symbols] returns a list in ascending order without
    duplicates.  For a table that is not empty it holds exactly the texts
    of the column "symbol" that are not missing; the column "ticker" is
    used only when there is no column "symbol". *)
Theorem symbols_sorted_unique (listing : symbol_source.listing_result) :
  StronglySorted str_le (symbol_source.get_all_symbols listing)
  /\ List.NoDup (symbol_source.get_all_symbols listing)
  /\ (forall df cells,
         listing = symbol_source.ListingReturns (Some df) ->
         symbol_source.lf_empty df = false ->
         symbol_source.lf_columns df !! u "symbol" = Some cells ->
         forall s, In s (symbol_source.get_all_symbols listing)
                   <-> In (Some s) cells)
  /\ (forall df cells,
         listing = symbol_source.ListingReturns (Some df) ->
         symbol_source.lf_empty df = false ->
         symbol_source.lf_columns df !! u "symbol" = None ->
         symbol_source.lf_columns df !! u "ticker" = Some cells ->
         forall s, In s (symbol_source.get_all_symbols listing)
                   <-> In (Some s) cells).
Proof.
  split; [|split; [|split]].
  - unfold symbol_source.get_all_symbols.
    destruct listing as [e|[df|]]; try constructor.
    destruct (symbol_source.lf_empty df); [constructor|].
    destruct (symbol_source.lf_columns df !! u "symbol") as [cells|];
      [apply SymbolFacts.column_symbols|].
    destruct (symbol_source.lf_columns df !! u "ticker") as [cells|];
      [apply SymbolFacts.column_symbols | constructor].
  - unfold symbol_source.get_all_symbols.
    destruct listing as [e|[df|]]; try constructor.
    destruct (symbol_source.lf_empty df); [constructor|].
    destruct (symbol_source.lf_columns df !! u "symbol") as [cells|];
      [apply SymbolFacts.column_symbols|].
    destruct (symbol_source.lf_columns df !! u "ticker") as [cells|];
      [apply SymbolFacts.column_symbols | constructor].
  - intros df cells -> He Hc s. unfold symbol_source.get_all_symbols.
    rewrite He, Hc. apply SymbolFacts.column_symbols.
  - intros df cells -> He Hn Hc s. unfold symbol_source.get_all_symbols.
    rewrite He, Hn, Hc. apply SymbolFacts.column_symbols.
Qed.

Example get_all_symbols_sample :
  symbol_source.get_all_symbols
    (symbol_source.ListingReturns
       (Some {| symbol_source.lf_rows := 5;
                symbol_source.lf_columns :=
                  {[ u "symbol" := [Some (u "VNM"); None; Some (u "FPT");
                                    Some (u "VNM"); Some (u "ACB")];
                     u "ticker" := [Some (u "ZZZ")] ]} |}))
  = [u "ACB"; u "FPT"; u "VNM"].
Proof. vm_compute. reflexivity. Qed.

(** X14.  When the listing raises, returns nothing, returns an empty table
    or a table with neither a column "symbol" nor a column "ticker",
    [get_all_symbols] returns the empty list; [download_all_symbols] then
    returns at once, nothing is processed or written, and the script ends
    with exit code 0. *)
Theorem listing_failure_means_no_work `{U : PyUnicode}
        (listing : symbol_source.listing_result) :
  ((exists e, listing = symbol_source.ListingRaises e)
   \/ listing = symbol_source.ListingReturns None
   \/ (exists df,
          listing = symbol_source.ListingReturns (Some df)
          /\ (symbol_source.lf_empty df = true
              \/ (symbol_source.lf_columns df !! u "symbol" = None
                  /\ symbol_source.lf_columns df !! u "ticker" = None))) ->
   symbol_source.get_all_symbols listing = [])
  /\ (symbol_source.get_all_symbols listing = [] ->
      forall start_date end_date dir world,
        download_vn_stocks.download_all_symbols
          start_date end_date (symbol_source.get_all_symbols listing) dir world
        = None
        /\ download_vn_stocks.run_main
             None start_date end_date
             (symbol_source.get_all_symbols listing) dir world
           = Exit 0).
Proof.
  split.
  - intros [[e ->] | [-> | [df [-> [He | [Hs Ht]]]]]]; try reflexivity.
    + unfold symbol_source.get_all_symbols. rewrite He. reflexivity.
    + unfold symbol_source.get_all_symbols. rewrite Hs, Ht.
      destruct (symbol_source.lf_empty df); reflexivity.
  - intros -> start_date end_date dir world. split; reflexivity.
Qed.

(** ** The rate gate: delays and progress *)

Module GateExtras.
Import RateGate.
Section Gate.
Variable min_request_interval : Z.

Local Abbreviation step := (RateGate.step min_request_interval).
Local Abbreviation run := (RateGate.run min_request_interval).
Local Abbreviation inv := (gate_inv min_request_interval).
Local Abbreviation timing := (gate_timing min_request_interval).

Lemma pc_of_set (t t' : nat) (p : pc) (s : state) :
  pc_of (set_pc t p s) t' = if decide (t = t') then p else pc_of s t'.
Proof. apply GateFacts.pc_of_set_pc. Qed.

Lemma timing_step (a : action) (s s' : state) :
  inv s -> timing s -> step a s = Some s' -> timing s'.
Proof.
  intros I [Hl Hs]. destruct a as [d|t|t|t|t|t|t|t]; cbn [RateGate.step].
  - destruct (Z.leb_spec 0 d); [|discriminate]. intros [= <-].
    split; cbn [clock last_request_time]; [lia | exact Hs].
  - destruct (lock s); [discriminate|].
    destruct (pc_of s t) eqn:Hp; try discriminate. intros [= <-].
    split; [exact Hl|]. intros t' w. rewrite pc_of_set.
    destruct (decide (t = t')); [discriminate | apply Hs].
  - destruct (pc_of s t) eqn:Hp; try discriminate.
    destruct (Z.ltb_spec (clock s - last_request_time s) min_request_interval);
      intros [= <-]; (split; [exact Hl|]); intros t' w; rewrite pc_of_set;
      (destruct (decide (t = t')); [|apply Hs]).
    + intros [= <-]. cbn [last_request_time set_pc]. lia.
    + discriminate.
  - destruct (pc_of s t) eqn:Hp; try discriminate.
    destruct (wake <=? clock s); [|discriminate]. intros [= <-].
    split; [exact Hl|]. intros t' w. rewrite pc_of_set.
    destruct (decide (t = t')); [discriminate | apply Hs].
  - destruct (pc_of s t) eqn:Hp; try discriminate. intros [= <-].
    split; [cbn [last_request_time clock set_pc]; lia|].
    intros t' w. rewrite pc_of_set.
    destruct (decide (t = t')) as [|Hne]; [discriminate|].
    change (pc_of s t' = Sleeping w -> w = clock s + min_request_interval).
    rewrite (GateFacts.others_idle min_request_interval s t t' I)
      by (unfold in_block; congruence). discriminate.
  - destruct (lock s); [discriminate|].
    destruct (pc_of s t) eqn:Hp; try discriminate. intros [= <-].
    split; [exact Hl|]. intros t' w. rewrite pc_of_set.
    destruct (decide (t = t')); [discriminate | apply Hs].
  - destruct (pc_of s t) eqn:Hp; try discriminate. intros [= <-].
    split; [cbn [last_request_time clock set_pc]; lia|].
    intros t' w. rewrite pc_of_set.
    destruct (decide (t = t')) as [|Hne]; [discriminate|].
    change (pc_of s t' = Sleeping w -> w = clock s + min_request_interval).
    rewrite (GateFacts.others_idle min_request_interval s t t' I)
      by (unfold in_block; congruence). discriminate.
  - destruct (pc_of s t) eqn:Hp; try discriminate. intros [= <-].
    split; [exact Hl|]. intros t' w. rewrite pc_of_set.
    destruct (decide (t = t')); [discriminate | apply Hs].
Qed.

Lemma timing_run (acts : list action) (s s' : state) :
  inv s -> timing s -> run acts s = Some s' -> timing s'.
Proof.
  revert s. induction acts as [|a acts IH]; intros s I T; cbn [RateGate.run].
  - intros [= <-]. exact T.
  - destruct (step a s) as [s1|] eqn:E; [|discriminate].
    apply IH; [apply (GateFacts.inv_step _ a s s1 I E)
              | apply (timing_step a s s1 I T E)].
Qed.

End Gate.
End GateExtras.

Section GateProgress.
Variable min_request_interval : Z.

Ltac gate_run Hp :=
  unfold RateGate.pc_of in *;
  repeat (cbn [RateGate.run RateGate.step];
          unfold RateGate.pc_of, RateGate.set_pc;
          cbn [RateGate.clock RateGate.last_request_time RateGate.lock
               RateGate.grants RateGate.pcs];
          rewrite ?lookup_insert_eq, ?Hp;
          cbn [default from_option id];
          repeat match goal with
                 | |- context [?a <=? ?b] =>
                   destruct (Z.leb_spec a b); [|lia]
                 | |- context [?a <? ?b] =>
                   first [ destruct (Z.ltb_spec a b); [|lia]
                         | destruct (Z.ltb_spec a b); [lia|] ]
                 end).

Ltac gate_done :=
  eexists; split; [reflexivity|];
  split; [reflexivity|];
  cbn [RateGate.pcs]; rewrite lookup_insert_eq; reflexivity.

Lemma finish_runs (s : RateGate.state) (t : nat) :
  RateGate.in_block s t ->
  exists s',
    RateGate.run min_request_interval
                 (finish_schedule min_request_interval s t) s = Some s'
    /\ RateGate.lock s' = None
    /\ RateGate.pc_of s' t = RateGate.Idle.
Proof.
  intros Hin. unfold finish_schedule, RateGate.in_block in *.
  destruct (RateGate.pc_of s t) eqn:Hp; [contradiction| | | | |].
  - destruct (Z.ltb_spec (RateGate.clock s - RateGate.last_request_time s)
                min_request_interval).
    + gate_run Hp. gate_done.
    + gate_run Hp. gate_done.
  - gate_run Hp. gate_done.
  - gate_run Hp. gate_done.
  - gate_run Hp. gate_done.
  - gate_run Hp. gate_done.
Qed.

Lemma acquire_runs (s : RateGate.state) (t : nat) :
  RateGate.lock s = None -> RateGate.pc_of s t = RateGate.Idle ->
  exists s',
    RateGate.run min_request_interval
                 (acquire_schedule min_request_interval s t) s = Some s'
    /\ RateGate.lock s' = None
    /\ RateGate.pc_of s' t = RateGate.Idle
    /\ RateGate.grants s'
       = Z.max (RateGate.clock s)
               (RateGate.last_request_time s + min_request_interval)
           :: RateGate.grants s
    /\ RateGate.last_request_time s'
       = Z.max (RateGate.clock s)
               (RateGate.last_request_time s + min_request_interval).
Proof.
  intros Hl Hp. unfold acquire_schedule.
  destruct (Z.ltb_spec (RateGate.clock s - RateGate.last_request_time s)
              min_request_interval).
  - cbn [RateGate.run RateGate.step]. rewrite Hl, Hp.
    gate_run Hp. eexists. split; [reflexivity|].
    cbn [RateGate.lock RateGate.pcs RateGate.grants
         RateGate.last_request_time].
    rewrite lookup_insert_eq.
    repeat split; try reflexivity; f_equal; lia.
  - cbn [RateGate.run RateGate.step]. rewrite Hl, Hp.
    gate_run Hp. eexists. split; [reflexivity|].
    cbn [RateGate.lock RateGate.pcs RateGate.grants
         RateGate.last_request_time].
    rewrite lookup_insert_eq.
    repeat split; try reflexivity; f_equal; lia.
Qed.

End GateProgress.

(** X15.  A thread that is inside one of the two blocks can always run to
    the end of its block by its own statements and the passing of time:
    no statement inside a block waits for another thread. *)
Theorem block_always_finishes (min_request_interval : Z)
        (s : RateGate.state) (t : nat) :
  RateGate.in_block s t ->
  exists s',
    RateGate.run min_request_interval
                 (finish_schedule min_request_interval s t) s = Some s'
    /\ RateGate.lock s' = None
    /\ RateGate.pc_of s' t = RateGate.Idle.
Proof. apply finish_runs. Qed.

(** X16.  In every state that an interleaving reaches from a start at a
    time that is not negative, [last_request_time] is not in the future,
    and a thread asleep in the gate wakes exactly
    [min_request_interval] after [last_request_time]: it has at most
    [min_request_interval] left to sleep. *)
Theorem gate_sleep_is_bounded (min_request_interval now : Z)
        (acts : list RateGate.action) (s : RateGate.state) :
  0 <= now ->
  RateGate.run min_request_interval acts (RateGate.init now) = Some s ->
  RateGate.last_request_time s <= RateGate.clock s
  /\ forall t wake,
      RateGate.pc_of s t = RateGate.Sleeping wake ->
      wake = RateGate.last_request_time s + min_request_interval
      /\ wake - RateGate.clock s <= min_request_interval.
Proof.
  intros Hnow H.
  assert (gate_timing min_request_interval s) as [Hl Hs].
  { apply (GateExtras.timing_run min_request_interval acts
             (RateGate.init now) s (GateFacts.inv_init _ now)); [|exact H].
    split; [exact Hnow|]. intros t w Hp. discriminate. }
  split; [exact Hl|]. intros t wake Hp.
  pose proof (Hs t wake Hp). lia.
Qed.

Lemma gate_sleep_is_bounded_witness :
  0 <= 100
  /\ exists s,
      RateGate.run 2 sleeper_schedule (RateGate.init 100) = Some s
      /\ RateGate.pc_of s 1 = RateGate.Sleeping 102
      /\ 102 - RateGate.clock s <= 2.
Proof.
  split; [lia|].
  destruct (RateGate.run 2 sleeper_schedule (RateGate.init 100))
    as [s|] eqn:E; [|vm_compute in E; discriminate].
  exists s. split; [reflexivity|].
  assert (RateGate.pc_of s 1 = RateGate.Sleeping 102) as Hp
      by (vm_compute in E; injection E as <-; reflexivity).
  split; [exact Hp|].
  exact (proj2 (proj2 (gate_sleep_is_bounded 2 100 sleeper_schedule s
                         ltac:(lia) E) 1%nat 102 Hp)).
Defined.

(** X17.  With the lock free, a thread that is outside the blocks passes
    the gate without help from any other thread, and its request is
    granted at the later of the present time and
    [last_request_time + min_request_interval]; that time becomes the new
    [last_request_time]. *)
Theorem uncontended_acquire (min_request_interval : Z)
        (s : RateGate.state) (t : nat) :
  RateGate.lock s = None -> RateGate.pc_of s t = RateGate.Idle ->
  exists s',
    RateGate.run min_request_interval
                 (acquire_schedule min_request_interval s t) s = Some s'
    /\ RateGate.lock s' = None
    /\ RateGate.pc_of s' t = RateGate.Idle
    /\ RateGate.grants s'
       = Z.max (RateGate.clock s)
               (RateGate.last_request_time s + min_request_interval)
           :: RateGate.grants s
    /\ RateGate.last_request_time s'
       = Z.max (RateGate.clock s)
               (RateGate.last_request_time s + min_request_interval).
Proof. apply acquire_runs. Qed.

Lemma uncontended_acquire_witness :
  RateGate.lock (RateGate.init 1) = None
  /\ RateGate.pc_of (RateGate.init 1) 7 = RateGate.Idle
  /\ exists s',
      RateGate.run 2 (acquire_schedule 2 (RateGate.init 1) 7)
                   (RateGate.init 1) = Some s'
      /\ RateGate.grants s' = [2].
Proof.
  split; [reflexivity|]. split; [reflexivity|].
  destruct (uncontended_acquire 2 (RateGate.init 1) 7 eq_refl eq_refl)
    as [s' [E [_ [_ [Hg _]]]]].
  exists s'. split; [exact E | exact Hg].
Defined.

Lemma block_always_finishes_witness :
  exists s,
    RateGate.run 2 sleeper_schedule (RateGate.init 100) = Some s
    /\ RateGate.in_block s 1
    /\ exists s',
        RateGate.run 2 (finish_schedule 2 s 1) s = Some s'
        /\ RateGate.lock s' = None.
Proof.
  destruct (RateGate.run 2 sleeper_schedule (RateGate.init 100))
    as [s|] eqn:E; [|vm_compute in E; discriminate].
  exists s. split; [reflexivity|].
  assert (RateGate.in_block s 1) as Hin.
  { vm_compute in E. injection E as <-. unfold RateGate.in_block.
    vm_compute. discriminate. }
  split; [exact Hin|].
  destruct (block_always_finishes 2 s 1 Hin) as [s' [E' [Hl _]]].
  exists s'. split; [exact E' | exact Hl].
Defined.

(** ** The handler, and the two copies of the loop *)

(** X18.  The loop of [download_vn30.py] is the loop of
    [download_vn_stocks.py] run for the symbol "VN30": for every provider
    and every bound the two return the same result and leave the same
    trace, and the two copies of [extract_wait_time] and of the throttling
    test agree on every text. *)
Theorem vn30_loop_is_stock_loop `{U : PyUnicode} (start_date end_date : str)
        (max_retries : Z) (world : item_world) (error_msg : str) :
  download_vn30.download_vn30_data start_date end_date max_retries world
  = download_vn_stocks.download_symbol_data (u "VN30") start_date end_date
                                            max_retries world
  /\ download_vn30.extract_wait_time error_msg
     = download_vn_stocks.extract_wait_time error_msg
  /\ download_vn30.is_rate_limit error_msg
     = download_vn_stocks.is_rate_limit error_msg.
Proof.
  split; [apply vn30_data | split; reflexivity].
Qed.


(** X20.  The message of a failure that is not retried has at most 103
    characters: it is the error text itself when that has at most 100
    characters, and otherwise its first 100 characters followed by
    "...". *)
Theorem other_failure_message_is_bounded `{U : PyUnicode}
        (symbol error_msg : str) (max_retries attempt : Z) :
  download_vn_stocks.is_rate_limit error_msg = false ->
  exists msg,
    download_vn_stocks.except_block symbol max_retries attempt error_msg
    = (Return (symbol, false, msg, 0), [])
    /\ len msg <= 103
    /\ (len error_msg <= 100 -> msg = error_msg)
    /\ (100 < len error_msg ->
        msg = slice_to 100 error_msg ++ u "..." /\ len msg = 103).
Proof.
  intros Hr. unfold download_vn_stocks.except_block. rewrite Hr.
  eexists. split; [reflexivity|]. rewrite Z.gtb_ltb.
  unfold len, slice_to.
  destruct (Z.ltb_spec 100 (Z.of_nat (length error_msg))) as [H|H].
  - assert (length (firstn 100 error_msg ++ u "...") = 103%nat) as E.
    { rewrite length_app, length_firstn. cbn [length u]. 
      change (length (u "...")) with 3%nat. lia. }
    rewrite E. repeat split; try lia. 
  - repeat split; try lia.
Qed.

Lemma other_failure_message_is_bounded_witness :
  download_vn_stocks.is_rate_limit (U := fragment) (repeat 120%N 150) = false
  /\ exists msg,
      download_vn_stocks.except_block (U := fragment) (u "ABC") 5 0
                                      (repeat 120%N 150)
      = (Return (u "ABC", false, msg, 0), [])
      /\ len msg <= 103.
Proof.
  split; [reflexivity|].
  destruct (other_failure_message_is_bounded (U := fragment) (u "ABC")
              (repeat 120%N 150) 5 0 eq_refl) as [msg [E [H _]]].
  exists msg. split; [exact E | exact H].
Defined.
